(** * E-commerce analytics: the sales assembler and the metrics engine

    A shallow embedding of [data_loader.py] and [business_metrics.py].

    Tables ([pd.DataFrame]) are lists of typed rows, a [pd.Series] is a list
    of (index, value) pairs in index order.  Column types follow the table
    loader's schema: identifiers and labels are strings, integer columns are
    [Z], nullable columns are [option].

    Numbers.  The programs compute on binary64 floats.  Rounding is
    abstracted: a finite float is an exact rational ([Qc], canonical
    rationals, so that equality is Leibniz equality), and the three special
    values are kept apart in [xnum].  Signed zeros are identified.
    Where a statement is about the rounded numbers themselves, the shares
    of a distribution and their sum, the binary64 values are computed as
    well, with the Standard Library's IEEE 754 operations ([Binary64]). *)

From Stdlib Require Import List Bool ZArith QArith Qcanon String Ascii.
From Stdlib Require Import Permutation Sorted Lia Lqa Qround.
From Stdlib Require Import DecimalString DecimalZ.
From Stdlib Require DecimalPos SpecFloat.
Import ListNotations.

Local Open Scope string_scope.
Local Open Scope list_scope.
Local Open Scope Z_scope.

(** ** Numbers *)

Module Numeric.

Definition Qc_eqb (x y : Qc) : bool := Qeq_bool x y.
Definition Qc_leb (x y : Qc) : bool := Qle_bool x y.
Definition Qc_ltb (x y : Qc) : bool := negb (Qle_bool y x).

Definition Qc_of_Z (z : Z) : Qc := Q2Qc (inject_Z z).
Definition Qc_of_nat (n : nat) : Qc := Qc_of_Z (Z.of_nat n).

(** A float: finite, plus or minus infinity, or not-a-number. *)
Inductive xnum : Type :=
| Fin (q : Qc)
| PInf
| NInf
| NaN.

Definition xint (z : Z) : xnum := Fin (Qc_of_Z z).

(** [a == b]: false as soon as one side is NaN. *)
Definition xeqb (a b : xnum) : bool :=
  match a, b with
  | Fin x, Fin y => Qc_eqb x y
  | PInf, PInf => true
  | NInf, NInf => true
  | _, _ => false
  end.

(** [a <= b]: false as soon as one side is NaN. *)
Definition xleb (a b : xnum) : bool :=
  match a, b with
  | NaN, _ => false
  | _, NaN => false
  | NInf, _ => true
  | _, PInf => true
  | Fin x, Fin y => Qc_leb x y
  | _, _ => false
  end.

Definition xneg (a : xnum) : xnum :=
  match a with
  | Fin x => Fin (- x)%Qc
  | PInf => NInf
  | NInf => PInf
  | NaN => NaN
  end.

Definition xadd (a b : xnum) : xnum :=
  match a, b with
  | NaN, _ => NaN
  | _, NaN => NaN
  | Fin x, Fin y => Fin (x + y)%Qc
  | PInf, NInf => NaN
  | NInf, PInf => NaN
  | PInf, _ => PInf
  | _, PInf => PInf
  | NInf, _ => NInf
  | _, NInf => NInf
  end.

Definition xsub (a b : xnum) : xnum := xadd a (xneg b).

(** IEEE division without a trap: a nonzero finite number over zero is an
    infinity, zero over zero is NaN. *)
Definition xdiv (a b : xnum) : xnum :=
  match a, b with
  | NaN, _ => NaN
  | _, NaN => NaN
  | Fin x, Fin y =>
      if Qc_eqb y 0 then
        if Qc_eqb x 0 then NaN else if Qc_ltb 0 x then PInf else NInf
      else Fin (x / y)%Qc
  | Fin _, _ => Fin 0%Qc
  | PInf, Fin y => if Qc_ltb y 0 then NInf else PInf
  | NInf, Fin y => if Qc_ltb y 0 then PInf else NInf
  | _, _ => NaN
  end.

(** Python's scalar operations either return or raise. *)
Inductive exn : Type :=
| ZeroDivisionError.

Inductive pyresult (A : Type) : Type :=
| Returns (a : A)
| Raises (e : exn).

Arguments Returns {A} a.
Arguments Raises {A} e.

(** [a / b] on Python numbers: a zero divisor raises. *)
Definition py_truediv (a b : xnum) : pyresult xnum :=
  if xeqb b (xint 0) then Raises ZeroDivisionError else Returns (xdiv a b).

Definition sum (l : list Qc) : Qc := fold_left Qcplus l 0%Qc.

(** [Series.mean()]: NaN on an empty series. *)
Definition mean (l : list Qc) : xnum :=
  match l with
  | [] => NaN
  | _ :: _ => Fin (sum l / Qc_of_nat (List.length l))%Qc
  end.

End Numeric.

Import Numeric.

(** ** Binary64 numbers *)

Module Binary64.

Definition prec : Z := 53.
Definition emax : Z := 1024.

Definition f64 : Type := SpecFloat.spec_float.

(** An integer count as a float (exact below 2^53). *)
Definition of_nat (n : nat) : f64 :=
  SpecFloat.binary_normalize prec emax (Z.of_nat n) 0 false.

Definition add (a b : f64) : f64 := SpecFloat.SFadd prec emax a b.
Definition div (a b : f64) : f64 := SpecFloat.SFdiv prec emax a b.

(** The float [m * 2^e], for [m] below 2^53. *)
Definition dyadic (m e : Z) : f64 :=
  SpecFloat.binary_normalize prec emax m e false.

(** [c / total] on two counts: the quotient, rounded once. *)
Definition quot (c total : nat) : f64 := div (of_nat c) (of_nat total).

(** The sum of a series, entry after entry. *)
Definition sum (l : list f64) : f64 := fold_left add l (of_nat 0).

End Binary64.

(** ** The pandas operations the two modules call *)

Module Pandas.

(** Column values that pandas hashes and compares: identifiers, labels,
    integers, and tuples of them.  A missing value equals a missing value
    here, as in [unique], [isin], [drop_duplicates] and the join keys. *)
Class EqB (A : Type) : Type := {
  eqb : A -> A -> bool;
  eqb_spec : forall x y : A, reflect (x = y) (eqb x y)
}.

#[export] Instance EqB_string : EqB string :=
  {| eqb := String.eqb; eqb_spec := String.eqb_spec |}.

#[export] Instance EqB_Z : EqB Z :=
  {| eqb := Z.eqb; eqb_spec := Z.eqb_spec |}.

#[export, refine] Instance EqB_option {A} `{EqB A} : EqB (option A) :=
  {| eqb := fun a b =>
       match a, b with
       | Some x, Some y => eqb x y
       | None, None => true
       | _, _ => false
       end |}.
Proof.
  intros [x|] [y|]; try (constructor; congruence).
  destruct (eqb_spec x y); constructor; congruence.
Defined.

#[export, refine] Instance EqB_prod {A B} `{EqB A} `{EqB B} : EqB (A * B) :=
  {| eqb := fun a b => eqb (fst a) (fst b) && eqb (snd a) (snd b) |}.
Proof.
  intros [a1 b1] [a2 b2]; simpl.
  destruct (eqb_spec a1 a2); destruct (eqb_spec b1 b2);
    constructor; congruence.
Defined.

Section Lists.
Context {A : Type}.

(** [Series.isin(values)] on one entry. *)
Definition isin `{EqB A} (values : list A) (x : A) : bool :=
  existsb (eqb x) values.

(** [Series.unique()]: the distinct values, each at its first
    occurrence. *)
Fixpoint unique `{EqB A} (l : list A) : list A :=
  match l with
  | [] => []
  | x :: t => x :: filter (fun y => negb (eqb x y)) (unique t)
  end.

Definition count `{EqB A} (x : A) (l : list A) : nat :=
  List.length (filter (eqb x) l).

(** A stable sort by a boolean order: [sort_values] and [sort_index],
    and the ordering of group keys. *)
Fixpoint insert (leb : A -> A -> bool) (x : A) (l : list A) : list A :=
  match l with
  | [] => [x]
  | y :: t => if leb x y then x :: l else y :: insert leb x t
  end.

Definition sort (leb : A -> A -> bool) (l : list A) : list A :=
  fold_right (insert leb) [] l.
End Lists.

(** [DataFrame.drop_duplicates()] over the columns [cols]: a row is kept
    when no earlier row has the same values. *)
Fixpoint drop_duplicates_from {R T} `{EqB T} (cols : R -> T)
  (seen : list T) (rows : list R) : list R :=
  match rows with
  | [] => []
  | r :: t =>
      if isin seen (cols r) then drop_duplicates_from cols seen t
      else r :: drop_duplicates_from cols (cols r :: seen) t
  end.

Definition drop_duplicates {R T} `{EqB T} (cols : R -> T) (rows : list R)
  : list R :=
  drop_duplicates_from cols [] rows.

(** [pd.merge(left, right, on=key)], an inner join: every pair of a left
    row and a right row with equal keys, in the order of the left rows. *)
Definition merge {L R K} `{EqB K} (keyl : L -> K) (keyr : R -> K)
  (left : list L) (right : list R) : list (L * R) :=
  flat_map
    (fun l => map (pair l) (filter (fun r => eqb (keyl l) (keyr r)) right))
    left.

(** [df.groupby(key)]: one group per distinct key, keys ascending, each
    group holding its rows in table order. *)
Definition groupby {R K} `{EqB K} (leb : K -> K -> bool) (key : R -> K)
  (rows : list R) : list (K * list R) :=
  map (fun k => (k, filter (fun r => eqb (key r) k) rows))
      (sort leb (unique (map key rows))).

(** [groupby(key)[col].sum()] and [groupby(key)[col].mean()]. *)
Definition groupby_sum {R K} `{EqB K} (leb : K -> K -> bool) (key : R -> K)
  (col : R -> Qc) (rows : list R) : list (K * Qc) :=
  map (fun g => (fst g, sum (map col (snd g)))) (groupby leb key rows).

Definition groupby_mean {R K} `{EqB K} (leb : K -> K -> bool) (key : R -> K)
  (col : R -> Qc) (rows : list R) : list (K * xnum) :=
  map (fun g => (fst g, mean (map col (snd g)))) (groupby leb key rows).

(** A nullable key column: rows with a missing key are in no group. *)
Definition dropna_key {R K} (key : R -> option K) (rows : list R)
  : list (K * R) :=
  flat_map (fun r => match key r with Some k => [(k, r)] | None => [] end)
           rows.

(** [Series.shift(1)]: every value moves one place down, the first place
    is missing. *)
Definition shift1 (vals : list xnum) : list xnum := NaN :: removelast vals.

(** [Series.pct_change()]: [s / s.shift(1) - 1], entry by entry.  (Older
    pandas first fills missing entries forward; the series it is applied
    to here, sums per group, has none.) *)
Definition pct_step (c : xnum * xnum) : xnum :=
  xsub (xdiv (fst c) (snd c)) (xint 1).

Definition pct_change {K} (s : list (K * xnum)) : list (K * xnum) :=
  combine (map fst s)
          (map pct_step (combine (map snd s) (shift1 (map snd s)))).

(** A series of sums as a series of floats. *)
Definition float_series {K} (s : list (K * Qc)) : list (K * xnum) :=
  map (fun e => (fst e, Fin (snd e))) s.

(** [Series.value_counts(normalize=True)]: each distinct value with its
    share of the entries, most frequent first. *)
Definition value_counts_normalize {A} `{EqB A} (vals : list A)
  : list (A * Qc) :=
  let counts := map (fun v => (v, count v vals)) (unique vals) in
  let sorted := sort (fun a b => Nat.leb (snd b) (snd a)) counts in
  let total := list_sum (map snd sorted) in
  map (fun c => (fst c, (Qc_of_nat (snd c) / Qc_of_nat total)%Qc)) sorted.

(** The same series with the shares as the binary64 numbers that
    [counts / counts.sum()] leaves. *)
Definition value_counts_normalize_f64 {A} `{EqB A} (vals : list A)
  : list (A * Binary64.f64) :=
  let counts := map (fun v => (v, count v vals)) (unique vals) in
  let sorted := sort (fun a b => Nat.leb (snd b) (snd a)) counts in
  let total := list_sum (map snd sorted) in
  map (fun c => (fst c, Binary64.quot (snd c) total)) sorted.

Definition sort_index {K V} (leb : K -> K -> bool) (s : list (K * V))
  : list (K * V) :=
  sort (fun a b => leb (fst a) (fst b)) s.

(** [Series.sort_values(ascending=False)]. *)
Definition sort_values_desc {K} (s : list (K * Qc)) : list (K * Qc) :=
  sort (fun a b => Qc_leb (snd b) (snd a)) s.

(** Timestamps are nanoseconds since 1970-01-01T00:00. *)
Definition Timestamp : Type := Z.

Definition ns_per_day : Z := 86400 * 1000000000.

(** Days since the epoch to (year, month, day) in the proleptic Gregorian
    calendar. *)
Definition civil_from_days (days : Z) : Z * Z * Z :=
  let z := days + 719468 in
  let era := z / 146097 in
  let doe := z - era * 146097 in
  let yoe := (doe - doe / 1460 + doe / 36524 - doe / 146096) / 365 in
  let doy := doe - (365 * yoe + yoe / 4 - yoe / 100) in
  let mp := (5 * doy + 2) / 153 in
  let d := doy - (153 * mp + 2) / 5 + 1 in
  let m := if mp <? 10 then mp + 3 else mp - 9 in
  let y := yoe + era * 400 in
  (if m <=? 2 then y + 1 else y, m, d).

Definition dt_year (t : Timestamp) : Z :=
  fst (fst (civil_from_days (t / ns_per_day))).

Definition dt_month (t : Timestamp) : Z :=
  snd (fst (civil_from_days (t / ns_per_day))).

(** [(a - b).dt.days]: the whole days of a time difference, rounded down. *)
Definition timedelta_days (a b : Timestamp) : Z := (a - b) / ns_per_day.

End Pandas.

Import Pandas.

(** ** The loader's tables *)

Record Order : Type := {
  o_order_id : string;
  o_customer_id : string;
  o_order_status : string;
  o_order_purchase_timestamp : Timestamp;
  o_order_approved_at : option Timestamp;
  o_order_delivered_carrier_date : option Timestamp;
  o_order_delivered_customer_date : option Timestamp;
  o_order_estimated_delivery_date : Timestamp
}.

Record OrderItem : Type := {
  i_order_id : string;
  i_order_item_id : Z;
  i_product_id : string;
  i_seller_id : string;
  i_shipping_limit_date : Timestamp;
  i_price : Qc;
  i_freight_value : Qc
}.

(** The columns of [products] and [reviews] that the metrics read. *)
Record Product : Type := {
  p_product_id : string;
  p_product_category_name : option string
}.

Record Review : Type := {
  r_review_id : string;
  r_order_id : string;
  r_review_score : Z
}.

(** The columns of [customers]. *)
Record Customer : Type := {
  c_customer_id : string;
  c_customer_unique_id : string;
  c_customer_zip_code_prefix : string;
  c_customer_city : string;
  c_customer_state : string
}.

(** A row of the flat sales table made by [build_sales_data]. *)
Record Sale : Type := {
  order_id : string;
  order_item_id : Z;
  product_id : string;
  price : Qc;
  order_status : string;
  order_purchase_timestamp : Timestamp;
  order_delivered_customer_date : option Timestamp;
  month : Z;
  year : Z
}.

(** A sales row with the column added by [add_delivery_speed]... *)
Record SaleSpeed : Type := {
  sale : Sale;
  delivery_speed_days : option Z
}.

(** ... and with the category column [delivery_time] the dashboard adds
    by applying [categorize_delivery_speed]. *)
Record SaleTimed : Type := {
  speed : SaleSpeed;
  delivery_time : string
}.

(** ** data_loader.py *)

Module DataLoader.

Local Open Scope string_scope.

(** A merged row, with the [month] and [year] columns taken from the
    purchase timestamp. *)
Definition sales_row (i : OrderItem) (o : Order) : Sale :=
  {| order_id := i_order_id i;
     order_item_id := i_order_item_id i;
     product_id := i_product_id i;
     price := i_price i;
     order_status := o_order_status o;
     order_purchase_timestamp := o_order_purchase_timestamp o;
     order_delivered_customer_date := o_order_delivered_customer_date o;
     month := dt_month (o_order_purchase_timestamp o);
     year := dt_year (o_order_purchase_timestamp o) |}.

Definition build_sales_data (orders : list Order) (order_items : list OrderItem)
  : list Sale :=
  let sales := merge i_order_id o_order_id order_items orders in
  map (fun io => sales_row (fst io) (snd io)) sales.

Definition filter_delivered_orders (sales_data : list Sale) : list Sale :=
  filter (fun s => eqb (order_status s) "delivered") sales_data.

Definition filter_by_period (sales_data : list Sale) (target_year : Z)
  (target_month : option Z) : list Sale :=
  let mask := fun s => eqb (year s) target_year in
  let mask :=
    match target_month with
    | Some m => fun s => mask s && eqb (month s) m
    | None => mask
    end in
  filter mask sales_data.

Definition add_delivery_speed (sales_data : list Sale) : list SaleSpeed :=
  map (fun s =>
         {| sale := s;
            delivery_speed_days :=
              match order_delivered_customer_date s with
              | Some delivered =>
                  Some (timedelta_days delivered (order_purchase_timestamp s))
              | None => None
              end |})
      sales_data.

Definition categorize_delivery_speed (days : xnum) : string :=
  if xleb days (xint 3) then "1-3 days"
  else if xleb days (xint 7) then "4-7 days"
  else "8+ days".

(** The float that a [delivery_speed_days] entry holds. *)
Definition days_value (d : option Z) : xnum :=
  match d with
  | Some n => xint n
  | None => NaN
  end.

(** [dashboard.load_data]:
    [df["delivery_time"] =
       df["delivery_speed_days"].apply(categorize_delivery_speed)]. *)
Definition add_delivery_time (sales_data : list SaleSpeed) : list SaleTimed :=
  map (fun s =>
         {| speed := s;
            delivery_time :=
              categorize_delivery_speed (days_value (delivery_speed_days s)) |})
      sales_data.

End DataLoader.

(** ** business_metrics.py *)

Module BusinessMetrics.

Definition calculate_revenue_growth (current_revenue previous_revenue : xnum)
  : pyresult xnum :=
  if xeqb previous_revenue (xint 0) then Returns NaN
  else py_truediv (xsub current_revenue previous_revenue) previous_revenue.

Definition calculate_monthly_revenue (sales_data : list Sale) : list (Z * Qc) :=
  groupby_sum Z.leb month price sales_data.

Definition calculate_monthly_growth (sales_data : list Sale)
  : list (Z * xnum) :=
  let monthly_rev := calculate_monthly_revenue sales_data in
  pct_change (float_series monthly_rev).

Definition calculate_average_order_value (sales_data : list Sale) : xnum :=
  mean (map snd (groupby_sum String.leb order_id price sales_data)).

Definition calculate_category_revenue (sales_data : list Sale)
  (products : list Product) : list (string * Qc) :=
  let merged := merge p_product_id product_id products sales_data in
  sort_values_desc
    (groupby_sum String.leb fst (fun m => price (snd (snd m)))
       (dropna_key (fun m => p_product_category_name (fst m)) merged)).

Definition calculate_review_score_distribution (sales_data : list Sale)
  (reviews : list Review) : list (Z * Qc) :=
  let order_ids := unique (map order_id sales_data) in
  let relevant := filter (fun r => isin order_ids (r_order_id r)) reviews in
  sort_index Z.leb (value_counts_normalize (map r_review_score relevant)).

(** [calculate_review_score_distribution] with the shares in binary64. *)
Definition calculate_review_score_distribution_f64 (sales_data : list Sale)
  (reviews : list Review) : list (Z * Binary64.f64) :=
  let order_ids := unique (map order_id sales_data) in
  let relevant := filter (fun r => isin order_ids (r_order_id r)) reviews in
  sort_index Z.leb (value_counts_normalize_f64 (map r_review_score relevant)).

(** The [order_id] column of a sales table with the delivery columns. *)
Definition timed_order_id (s : SaleTimed) : string :=
  order_id (sale (speed s)).

(** The four columns kept before [drop_duplicates]. *)
Definition per_order_columns (m : SaleTimed * Review)
  : string * option Z * string * Z :=
  (timed_order_id (fst m),
   delivery_speed_days (speed (fst m)),
   delivery_time (fst m),
   r_review_score (snd m)).

Definition per_order_rows (sales_data_with_speed : list SaleTimed)
  (reviews : list Review) : list (string * option Z * string * Z) :=
  let merged :=
    merge timed_order_id r_order_id sales_data_with_speed reviews in
  drop_duplicates (fun r => r) (map per_order_columns merged).

(** The columns of a de-duplicated row. *)
Definition row_order_id (r : string * option Z * string * Z) : string :=
  fst (fst (fst r)).

Definition row_delivery_time (r : string * option Z * string * Z) : string :=
  snd (fst r).

Definition row_review_score (r : string * option Z * string * Z) : Z :=
  snd r.

Definition calculate_delivery_review_correlation
  (sales_data_with_speed : list SaleTimed) (reviews : list Review)
  : list (string * xnum) :=
  let per_order := per_order_rows sales_data_with_speed reviews in
  groupby_mean String.leb row_delivery_time
               (fun r => Qc_of_Z (row_review_score r)) per_order.

(** The entries of a float column that are not missing: the ones that
    [Series.mean()] averages. *)
Definition dropna (col : list (option Z)) : list Qc :=
  flat_map (fun v => match v with Some n => [Qc_of_Z n] | None => [] end) col.

Definition calculate_average_delivery_time
  (sales_data_with_speed : list SaleSpeed) : xnum :=
  mean (dropna (map delivery_speed_days sales_data_with_speed)).

Definition calculate_total_revenue (sales_data : list Sale) : Qc :=
  sum (map price sales_data).

Definition calculate_order_count (sales_data : list Sale) : Z :=
  Z.of_nat (List.length (unique (map order_id sales_data))).

Definition calculate_state_revenue (sales_data : list Sale)
  (orders : list Order) (customers : list Customer) : list (string * Qc) :=
  let with_customer := merge order_id o_order_id sales_data orders in
  let with_state :=
    merge (fun m => o_customer_id (snd m)) c_customer_id
          with_customer customers in
  sort_values_desc
    (groupby_sum String.leb (fun m => c_customer_state (snd m))
                 (fun m => price (fst (fst m))) with_state).

Definition calculate_average_review_score (sales_data : list Sale)
  (reviews : list Review) : xnum :=
  let order_ids := unique (map order_id sales_data) in
  let relevant := filter (fun r => isin order_ids (r_order_id r)) reviews in
  mean (map (fun r => Qc_of_Z (r_review_score r)) relevant).

Definition calculate_order_status_distribution (orders : list Order)
  (target_year : Z) : list (string * Qc) :=
  let orders_year :=
    filter (fun o => eqb (dt_year (o_order_purchase_timestamp o)) target_year)
           orders in
  value_counts_normalize (map o_order_status orders_year).

(** [str(n)] and [f"{n:02d}"] on an integer. *)
Definition str_int (n : Z) : string := NilZero.string_of_int (Z.to_int n).

Definition format_02d (n : Z) : string :=
  if (0 <=? n) && (n <? 10) then ("0" ++ str_int n)%string else str_int n.

Record PeriodMetrics : Type := {
  period : string;
  total_revenue : Qc;
  order_count : Z;
  avg_order_value : xnum
}.

Definition summarize_period_metrics (sales_data : list Sale) (target_year : Z)
  (target_month : option Z) : PeriodMetrics :=
  let period_label :=
    match target_month with
    | None => str_int target_year
    | Some m => (str_int target_year ++ "-" ++ format_02d m)%string
    end in
  {| period := period_label;
     total_revenue := calculate_total_revenue sales_data;
     order_count := calculate_order_count sales_data;
     avg_order_value := calculate_average_order_value sales_data |}.

End BusinessMetrics.

Import DataLoader BusinessMetrics.

(** ** dashboard.py: the table preparation and the star rating *)

Module Dashboard.

Definition DELIVERY_ORDER : list string := ["1-3 days"; "4-7 days"; "8+ days"].

(** [load_data], from the tables that [load_all_datasets] has read. *)
Definition load_data (orders : list Order) (order_items : list OrderItem)
  : list SaleTimed :=
  let sales := build_sales_data orders order_items in
  let sales_del := filter_delivered_orders sales in
  let sales_del := add_delivery_speed sales_del in
  add_delivery_time sales_del.

(** The period filters of the page: the rows of [sel_year], and of the
    year before it, by the purchase timestamp; with a month selected,
    both are narrowed to that month. *)
Definition period_mask (target_year : Z) (sel_month : option Z)
  (s : SaleTimed) : bool :=
  let ts := order_purchase_timestamp (sale (speed s)) in
  let year_mask := eqb (dt_year ts) target_year in
  match sel_month with
  | Some m => year_mask && eqb (dt_month ts) m
  | None => year_mask
  end.

Definition sales_curr (sales_all : list SaleTimed) (sel_year : Z)
  (sel_month : option Z) : list SaleTimed :=
  filter (period_mask sel_year sel_month) sales_all.

Definition sales_comp (sales_all : list SaleTimed) (sel_year : Z)
  (sel_month : option Z) : list SaleTimed :=
  filter (period_mask (sel_year - 1) sel_month) sales_all.

(** The exceptions that reach the callers below. *)
Inductive raised : Type :=
| OverflowError
| ValueError.

(** [Series.reindex(labels)] on a series indexed by label: the entry of
    each label in the order given, missing where the label is absent;
    refused when the index holds a label twice. *)
Definition has_duplicates (labels : list string) : bool :=
  negb (Nat.eqb (List.length (unique labels)) (List.length labels)).

Definition reindex (s : list (string * xnum)) (labels : list string)
  : list (string * xnum) + raised :=
  if has_duplicates (map fst s) then inr ValueError
  else
    inl (map (fun l =>
                (l, match find (fun e => eqb (fst e) l) s with
                    | Some e => snd e
                    | None => NaN
                    end))
             labels).

(** [deliv_rev.set_index("delivery_time").reindex(DELIVERY_ORDER)]. *)
Definition delivery_chart_rows (sales : list SaleTimed) (reviews : list Review)
  : list (string * xnum) + raised :=
  reindex (calculate_delivery_review_correlation sales reviews) DELIVERY_ORDER.

(** [round(x)] on a finite float: the nearest integer, the even one of the
    two when [x] lies halfway. *)
Definition round_half_even (q : Qc) : Z :=
  let f := Qfloor q in
  match Qcompare (q - inject_Z f) (1 # 2) with
  | Lt => f
  | Gt => f + 1
  | Eq => if Z.even f then f else f + 1
  end.

Fixpoint repeat_string (s : string) (n : nat) : string :=
  match n with
  | O => ""
  | S k => (s ++ repeat_string s k)%string
  end.

Definition stars (n : Z) : string :=
  (repeat_string "★" (Z.to_nat n)
   ++ repeat_string "☆" (Z.to_nat (5 - n)))%string.

(** [star_str(score)], [score] a float or [None].  [float(None)] raises
    TypeError and [round] of NaN raises ValueError, both handled by the
    [except] clause; [round] of an infinity raises OverflowError, which
    the clause does not list. *)
Definition star_str (score : option xnum) : string + raised :=
  match score with
  | None => inl (stars 0)
  | Some NaN => inl (stars 0)
  | Some PInf => inr OverflowError
  | Some NInf => inr OverflowError
  | Some (Fin q) =>
      let n := round_half_even q in
      let n := Z.max 0 (Z.min 5 n) in
      inl (stars n)
  end.

End Dashboard.

Import Dashboard.

(** ** The metrics in the specification's words *)

Module Spec.

(** The value of an order: the sum of price over the order's records. *)
Definition order_total (records : list Sale) (oid : string) : Qc :=
  sum (map price (filter (fun s => eqb (order_id s) oid) records)).

(** The change from [previous] to [current], relative to [previous]. *)
Definition percent_change (previous current : Qc) : xnum :=
  xdiv (xsub (Fin current) (Fin previous)) (Fin previous).

(** Month over month: every entry against the entry before it, the first
    entry against nothing. *)
Fixpoint growth_after {K} (previous : Qc) (s : list (K * Qc))
  : list (K * xnum) :=
  match s with
  | [] => []
  | e :: t => (fst e, percent_change previous (snd e)) :: growth_after (snd e) t
  end.

Definition month_over_month {K} (s : list (K * Qc)) : list (K * xnum) :=
  match s with
  | [] => []
  | e :: t => (fst e, NaN) :: growth_after (snd e) t
  end.

(** The review scores of the records' orders: the scores of the reviews
    whose order identifier is the order identifier of a record. *)
Definition relevant_scores (records : list Sale) (reviews : list Review)
  : list Z :=
  map r_review_score
      (filter (fun r => isin (map order_id records) (r_order_id r)) reviews).

(** The share of the entries of [scores] that equal [s]. *)
Definition frequency (scores : list Z) (s : Z) : Qc :=
  (Qc_of_nat (count s scores) / Qc_of_nat (List.length scores))%Qc.

(** The observations behind a delivery category's average: the rows of
    the category. *)
Definition category_observations (rows : list (string * option Z * string * Z))
  (c : string) : list (string * option Z * string * Z) :=
  filter (fun r => eqb (row_delivery_time r) c) rows.

(** The revenue of a category: join the records to the products on the
    product identifier and sum price over the joined rows of the
    category. *)
Definition category_total (records : list Sale) (products : list Product)
  (c : string) : Qc :=
  sum (map (fun m => price (snd m))
           (filter (fun m => eqb (p_product_category_name (fst m)) (Some c))
                   (merge p_product_id product_id products records))).

(** The revenue of a month: the sum of price over the month's records. *)
Definition month_total (records : list Sale) (m : Z) : Qc :=
  sum (map price (filter (fun s => eqb (month s) m) records)).

(** The revenue of a state: join the records to the orders on the order
    identifier and on to the customers on the customer identifier, and sum
    price over the joined rows of the state. *)
Definition state_total (records : list Sale) (orders : list Order)
  (customers : list Customer) (st : string) : Qc :=
  sum (map (fun m => price (fst (fst m)))
           (filter (fun m => eqb (c_customer_state (snd m)) st)
                   (merge (fun m => o_customer_id (snd m)) c_customer_id
                          (merge order_id o_order_id records orders)
                          customers))).

(** The delivery speeds that are defined, one per record that has one. *)
Definition defined_speeds (records : list SaleSpeed) : list Qc :=
  map (fun r => match delivery_speed_days r with
                | Some n => Qc_of_Z n
                | None => 0%Qc
                end)
      (filter (fun r => match delivery_speed_days r with
                        | Some _ => true
                        | None => false
                        end)
              records).

End Spec.

(** ** Sample tables *)

Module Samples.

Local Open Scope string_scope.

Definition sale_of (oid : string) (item : Z) (pid : string) (p : Z) (m : Z)
  : Sale :=
  {| order_id := oid; order_item_id := item; product_id := pid;
     price := Qc_of_Z p; order_status := "delivered";
     order_purchase_timestamp := 0; order_delivered_customer_date := None;
     month := m; year := 1970 |}.

(** Two orders: one with items priced 10 and 20, one with an item priced
    15. *)
Definition two_orders : list Sale :=
  [sale_of "A" 1 "p1" 10 1; sale_of "A" 2 "p2" 20 1; sale_of "B" 1 "p1" 15 1].

(** Three months with revenues 100, 150 and 90, rows out of order. *)
Definition three_months : list Sale :=
  [sale_of "B" 1 "p1" 150 5; sale_of "A" 1 "p1" 60 4; sale_of "C" 1 "p2" 90 7;
   sale_of "A" 2 "p2" 40 4].

Definition hour : Z := 3600 * 1000000000.

Definition with_delivery (s : Sale) (purchased : Timestamp)
  (delivered : option Timestamp) : Sale :=
  {| order_id := order_id s; order_item_id := order_item_id s;
     product_id := product_id s; price := price s;
     order_status := order_status s;
     order_purchase_timestamp := purchased;
     order_delivered_customer_date := delivered;
     month := dt_month purchased; year := dt_year purchased |}.

(** Delivered after 2 days and 5 hours; not delivered; delivered after 4
    days and 23 hours. *)
Definition three_deliveries : list Sale :=
  [with_delivery (sale_of "A" 1 "p1" 10 1) 0 (Some (53 * hour));
   with_delivery (sale_of "B" 1 "p1" 10 1) 0 None;
   with_delivery (sale_of "C" 1 "p1" 10 1) (24 * hour) (Some (143 * hour))].

Definition catalog : list Product :=
  [{| p_product_id := "p1"; p_product_category_name := Some "toys" |};
   {| p_product_id := "p2"; p_product_category_name := Some "books" |};
   {| p_product_id := "p3"; p_product_category_name := None |}].

(** Sales of the two catalogued products, of the product without a
    category and of a product that is not in the catalog. *)
Definition catalog_sales : list Sale :=
  [sale_of "A" 1 "p1" 10 1; sale_of "A" 2 "p2" 25 1; sale_of "B" 1 "p9" 99 1;
   sale_of "C" 1 "p2" 5 1; sale_of "C" 2 "p3" 7 1].

Definition review_of (rid oid : string) (score : Z) : Review :=
  {| r_review_id := rid; r_order_id := oid; r_review_score := score |}.

(** Four reviewed orders, the first with two items, with scores 5, 5, 4
    and 3; the review of order "Z" belongs to no record. *)
Definition reviewed_sales : list Sale :=
  [sale_of "A" 1 "p1" 10 1; sale_of "A" 2 "p2" 20 1; sale_of "B" 1 "p1" 15 1;
   sale_of "C" 1 "p1" 15 1; sale_of "D" 1 "p2" 5 1].

Definition four_reviews : list Review :=
  [review_of "r1" "A" 5; review_of "r2" "Z" 1; review_of "r3" "B" 5;
   review_of "r4" "C" 4; review_of "r5" "D" 3].

(** Order "A" has three items and is delivered in 2 days, order "B" in 1
    day, order "C" in 10 days. *)
Definition timed_sales : list SaleTimed :=
  add_delivery_time
    (add_delivery_speed
       (filter_delivered_orders
          [with_delivery (sale_of "A" 1 "p1" 10 1) 0 (Some (53 * hour));
           with_delivery (sale_of "A" 2 "p2" 20 1) 0 (Some (53 * hour));
           with_delivery (sale_of "B" 1 "p1" 15 1) 0 (Some (30 * hour));
           with_delivery (sale_of "A" 3 "p1" 10 1) 0 (Some (53 * hour));
           with_delivery (sale_of "C" 1 "p2" 5 1) 0 (Some (240 * hour))])).

Definition timed_reviews : list Review :=
  [review_of "r1" "A" 4; review_of "r2" "B" 5; review_of "r3" "C" 2].

Definition customer_of (cid state : string) : Customer :=
  {| c_customer_id := cid; c_customer_unique_id := cid;
     c_customer_zip_code_prefix := "00000"; c_customer_city := "city";
     c_customer_state := state |}.

(** Orders "A" and "B" of two customers in different states. *)
Definition state_orders : list Order :=
  [{| o_order_id := "A"; o_customer_id := "c1";
      o_order_status := "delivered"; o_order_purchase_timestamp := 0;
      o_order_approved_at := None; o_order_delivered_carrier_date := None;
      o_order_delivered_customer_date := None;
      o_order_estimated_delivery_date := 0 |};
   {| o_order_id := "B"; o_customer_id := "c2";
      o_order_status := "shipped"; o_order_purchase_timestamp := 0;
      o_order_approved_at := None; o_order_delivered_carrier_date := None;
      o_order_delivered_customer_date := None;
      o_order_estimated_delivery_date := 0 |}].

Definition state_customers : list Customer :=
  [customer_of "c1" "CA"; customer_of "c2" "TX"].

(** A row delivered 2 days and 5 hours after the purchase, as the
    dashboard's table preparation leaves it. *)
Definition delivered_sale : Sale :=
  with_delivery (sale_of "A" 1 "p1" 10 1) 0 (Some (53 * hour)).

Definition delivered_speed : SaleSpeed :=
  {| sale := delivered_sale; delivery_speed_days := Some 2 |}.

Definition delivered_timed : SaleTimed :=
  {| speed := delivered_speed; delivery_time := "1-3 days" |}.

(** Six reviewed orders with scores 3, 4, 4, 4, 4 and 5. *)
Definition six_sales : list Sale :=
  [sale_of "A" 1 "p1" 10 1; sale_of "B" 1 "p1" 10 1; sale_of "C" 1 "p1" 10 1;
   sale_of "D" 1 "p1" 10 1; sale_of "E" 1 "p1" 10 1; sale_of "F" 1 "p1" 10 1].

Definition six_reviews : list Review :=
  [review_of "r1" "A" 3; review_of "r2" "B" 4; review_of "r3" "C" 4;
   review_of "r4" "D" 4; review_of "r5" "E" 4; review_of "r6" "F" 5].

Definition undelivered : SaleSpeed :=
  {| sale := sale_of "B" 1 "p1" 10 1; delivery_speed_days := None |}.

Definition order_of (oid : string) (purchased : Timestamp) : Order :=
  {| o_order_id := oid; o_customer_id := "c"; o_order_status := "delivered";
     o_order_purchase_timestamp := purchased;
     o_order_approved_at := None;
     o_order_delivered_carrier_date := None;
     o_order_delivered_customer_date := None;
     o_order_estimated_delivery_date := purchased |}.

Definition item_of (oid : string) (item : Z) (p : Z) : OrderItem :=
  {| i_order_id := oid; i_order_item_id := item; i_product_id := "p1";
     i_seller_id := "s"; i_shipping_limit_date := 0;
     i_price := Qc_of_Z p; i_freight_value := 0%Qc |}.

Definition one_item : list OrderItem := [item_of "A" 1 10].

Definition orders_once : list Order := [order_of "A" 0].

Definition orders_other : list Order := [order_of "B" 0].

End Samples.

Import Spec Samples.

(** * Properties *)

(** ** Numbers *)

Lemma Qc_eqb_eq (x y : Qc) : Qc_eqb x y = true <-> x = y.
Proof.
  unfold Qc_eqb. rewrite Qeq_bool_iff. split.
  - apply Qc_is_canon.
  - intros ->. reflexivity.
Qed.

Lemma Qc_eqb_neq (x y : Qc) : Qc_eqb x y = false <-> x <> y.
Proof.
  rewrite <- Qc_eqb_eq. destruct (Qc_eqb x y); split; congruence.
Qed.

Lemma Qc_leb_le (x y : Qc) : Qc_leb x y = true <-> (x <= y)%Qc.
Proof. unfold Qc_leb. apply Qle_bool_iff. Qed.

Lemma Qc_leb_gt (x y : Qc) : Qc_leb x y = false <-> (y < x)%Qc.
Proof.
  split; intros H.
  - destruct (Qclt_le_dec y x) as [Hlt|Hle]; [exact Hlt|].
    apply Qc_leb_le in Hle. congruence.
  - destruct (Qc_leb x y) eqn:E; [|reflexivity].
    apply Qc_leb_le in E. exfalso. exact (Qclt_not_le _ _ H E).
Qed.

Lemma Qc_leb_total (x y : Qc) : Qc_leb x y = true \/ Qc_leb y x = true.
Proof.
  destruct (Qc_leb x y) eqn:E; [now left|right].
  apply Qc_leb_gt in E. apply Qc_leb_le. now apply Qclt_le_weak.
Qed.

Lemma Qc_of_Z_le (a b : Z) : a <= b -> (Qc_of_Z a <= Qc_of_Z b)%Qc.
Proof.
  intros H. unfold Qcle, Qc_of_Z. cbn [this Q2Qc].
  rewrite !Qred_correct. unfold Qle; simpl. lia.
Qed.

Lemma Qc_of_Z_lt (a b : Z) : a < b -> (Qc_of_Z a < Qc_of_Z b)%Qc.
Proof.
  intros H. unfold Qclt, Qc_of_Z. cbn [this Q2Qc].
  rewrite !Qred_correct. unfold Qlt; simpl. lia.
Qed.

Lemma Qc_of_nat_plus (a b : nat) :
  Qc_of_nat (a + b) = (Qc_of_nat a + Qc_of_nat b)%Qc.
Proof.
  apply Qc_is_canon. unfold Qc_of_nat, Qc_of_Z, Qcplus. cbn [this Q2Qc].
  rewrite !Qred_correct, Nat2Z.inj_add, inject_Z_plus. reflexivity.
Qed.

(** *** Sums and means *)

Lemma fold_Qcplus_acc (l : list Qc) (a : Qc) :
  fold_left Qcplus l a = (a + sum l)%Qc.
Proof.
  unfold sum. revert a. induction l as [|x l IH]; intros a; simpl.
  - ring.
  - rewrite IH, (IH (0 + x)%Qc). ring.
Qed.

Lemma sum_cons (x : Qc) (l : list Qc) : sum (x :: l) = (x + sum l)%Qc.
Proof.
  unfold sum at 1. simpl. rewrite fold_Qcplus_acc. ring.
Qed.

Lemma sum_Permutation (l1 l2 : list Qc) :
  Permutation l1 l2 -> sum l1 = sum l2.
Proof.
  induction 1 as [|x l l' _ IH|x y l|l l' l'' _ IH1 _ IH2].
  - reflexivity.
  - now rewrite !sum_cons, IH.
  - rewrite !sum_cons. ring.
  - congruence.
Qed.

Lemma mean_Permutation (l1 l2 : list Qc) :
  Permutation l1 l2 -> mean l1 = mean l2.
Proof.
  intros HP. destruct l1 as [|x l1].
  - apply Permutation_nil in HP. now subst.
  - destruct l2 as [|y l2].
    + apply Permutation_sym, Permutation_nil in HP. discriminate.
    + unfold mean.
      now rewrite (sum_Permutation _ _ HP), (Permutation_length HP).
Qed.

(** *** Equality tests *)

Lemma eqb_eq {A} `{EqB A} (x y : A) : eqb x y = true <-> x = y.
Proof. destruct (eqb_spec x y); split; congruence. Qed.

Lemma eqb_neq {A} `{EqB A} (x y : A) : eqb x y = false <-> x <> y.
Proof. destruct (eqb_spec x y); split; congruence. Qed.

Lemma eqb_refl {A} `{EqB A} (x : A) : eqb x x = true.
Proof. now apply eqb_eq. Qed.

Lemma isin_In {A} `{EqB A} (l : list A) (x : A) : isin l x = true <-> In x l.
Proof.
  unfold isin. rewrite existsb_exists. split.
  - intros [y [Hy E]]. apply eqb_eq in E. now subst.
  - intros Hx. exists x. split; [assumption|apply eqb_refl].
Qed.

(** *** unique *)

Section UniqueFacts.
Context {A : Type} `{EqB A}.

Lemma unique_In (l : list A) (x : A) : In x (unique l) <-> In x l.
Proof.
  induction l as [|a l IH]; simpl; [tauto|].
  rewrite filter_In, IH, negb_true_iff, eqb_neq.
  destruct (eqb_spec a x) as [->|Hne]; tauto.
Qed.

Lemma unique_NoDup (l : list A) : NoDup (unique l).
Proof.
  induction l as [|a l IH]; simpl; constructor.
  - rewrite filter_In, negb_true_iff, eqb_neq. tauto.
  - now apply NoDup_filter.
Qed.

End UniqueFacts.

(** *** sort *)

Section SortFacts.
Context {A : Type} (leb : A -> A -> bool).

Lemma insert_Permutation (x : A) (l : list A) :
  Permutation (insert leb x l) (x :: l).
Proof.
  induction l as [|y l IH]; simpl; [reflexivity|].
  destruct (leb x y); [reflexivity|].
  rewrite IH. apply perm_swap.
Qed.

Lemma sort_Permutation (l : list A) : Permutation (sort leb l) l.
Proof.
  induction l as [|x l IH]; simpl; [constructor|].
  fold (sort leb l). rewrite insert_Permutation. now constructor.
Qed.

Lemma sort_In (l : list A) (x : A) : In x (sort leb l) <-> In x l.
Proof.
  split; apply Permutation_in;
    [|apply Permutation_sym]; apply sort_Permutation.
Qed.

Lemma sort_NoDup (l : list A) : NoDup l -> NoDup (sort leb l).
Proof.
  intros Hl. eapply Permutation_NoDup; [|exact Hl].
  apply Permutation_sym, sort_Permutation.
Qed.

Hypothesis leb_total : forall x y, leb x y = true \/ leb y x = true.

Lemma insert_Sorted (x : A) (l : list A) :
  Sorted (fun a b => leb a b = true) l ->
  Sorted (fun a b => leb a b = true) (insert leb x l).
Proof.
  induction 1 as [|y l Hs IH Hhd]; simpl.
  - repeat constructor.
  - destruct (leb x y) eqn:E.
    + repeat constructor; assumption.
    + constructor; [exact IH|].
      assert (Hyx : leb y x = true)
        by (destruct (leb_total x y); congruence).
      destruct l as [|z l]; simpl.
      * now constructor.
      * destruct (leb x z); constructor; [assumption|].
        now inversion Hhd.
Qed.

Lemma sort_Sorted (l : list A) :
  Sorted (fun a b => leb a b = true) (sort leb l).
Proof.
  induction l as [|x l IH]; simpl; [constructor|].
  now apply insert_Sorted.
Qed.

End SortFacts.

(** Closes a goal that compares two closed rationals, or structures
    holding them. *)
Ltac qc_closed :=
  vm_compute;
  repeat first
    [ reflexivity
    | apply Qc_is_canon; reflexivity
    | match goal with
      | |- ?f _ = ?f _ => f_equal
      | |- ?f _ _ = ?f _ _ => f_equal
      end ].

(** ** categorize_delivery_speed *)

(** C9.  On a number of days [q], the category is "1-3 days" when
    [q <= 3], "4-7 days" when [4 <= q <= 7] and "8+ days" when [8 <= q];
    the boundary values 3, 4, 7 and 8 fall in "1-3 days", "4-7 days",
    "4-7 days" and "8+ days". *)
Theorem categorize_delivery_speed_buckets :
  (forall q : Qc,
      ((q <= Qc_of_Z 3)%Qc ->
       categorize_delivery_speed (Fin q) = "1-3 days"%string) /\
      ((Qc_of_Z 4 <= q)%Qc /\ (q <= Qc_of_Z 7)%Qc ->
       categorize_delivery_speed (Fin q) = "4-7 days"%string) /\
      ((Qc_of_Z 8 <= q)%Qc ->
       categorize_delivery_speed (Fin q) = "8+ days"%string)) /\
  categorize_delivery_speed (xint 3) = "1-3 days"%string /\
  categorize_delivery_speed (xint 4) = "4-7 days"%string /\
  categorize_delivery_speed (xint 7) = "4-7 days"%string /\
  categorize_delivery_speed (xint 8) = "8+ days"%string.
Proof.
  split; [|repeat split; reflexivity].
  intros q. unfold categorize_delivery_speed, xint; simpl.
  assert (H34 : (Qc_of_Z 3 < Qc_of_Z 4)%Qc) by (apply Qc_of_Z_lt; lia).
  assert (H78 : (Qc_of_Z 7 < Qc_of_Z 8)%Qc) by (apply Qc_of_Z_lt; lia).
  repeat split.
  - intros H. apply Qc_leb_le in H. now rewrite H.
  - intros [Hlo Hhi].
    assert (E3 : Qc_leb q (Qc_of_Z 3) = false).
    { apply Qc_leb_gt. eapply Qclt_le_trans; eassumption. }
    apply Qc_leb_le in Hhi. now rewrite E3, Hhi.
  - intros H.
    assert (E7 : Qc_leb q (Qc_of_Z 7) = false).
    { apply Qc_leb_gt. eapply Qclt_le_trans; eassumption. }
    assert (E3 : Qc_leb q (Qc_of_Z 3) = false).
    { apply Qc_leb_gt. eapply Qclt_trans; [exact H34|].
      eapply Qclt_le_trans; [|exact H].
      apply Qc_of_Z_lt; lia. }
    now rewrite E3, E7.
Qed.

Lemma categorize_delivery_speed_buckets_witness :
  categorize_delivery_speed (Fin (Qc_of_Z 5)) = "4-7 days"%string.
Proof.
  apply (proj1 (proj2 (proj1 categorize_delivery_speed_buckets (Qc_of_Z 5)))).
  split; apply Qc_of_Z_le; lia.
Defined.

(** C10.  On a missing day count the function returns a label, and the
    label is "8+ days": a comparison with NaN is false on either side, so
    neither guard is taken.  The same holds for the entry of a
    [delivery_speed_days] column that is missing. *)
Theorem categorize_delivery_speed_nan :
  (forall b : xnum, xleb NaN b = false /\ xleb b NaN = false) /\
  categorize_delivery_speed NaN = "8+ days"%string /\
  categorize_delivery_speed (days_value None) = "8+ days"%string.
Proof.
  split; [|split; reflexivity].
  intros b; split; [reflexivity|now destruct b].
Qed.

(** ** calculate_revenue_growth *)

Lemma xeqb_zero_Fin (p : Qc) : xeqb (Fin p) (xint 0) = Qc_eqb p 0.
Proof. reflexivity. Qed.

(** C2.  With a previous value of zero the growth is NaN whatever the
    current value, returned and not raised; with any other previous value
    the call returns [(current - previous) / previous], on finite numbers
    the exact quotient; and the growth from 100 to 110 is 1/10. *)
Theorem calculate_revenue_growth_spec :
  (forall x : xnum, calculate_revenue_growth x (xint 0) = Returns NaN) /\
  (forall current previous : xnum,
      xeqb previous (xint 0) = false ->
      calculate_revenue_growth current previous
      = Returns (xdiv (xsub current previous) previous)) /\
  (forall c p : Qc,
      p <> 0%Qc ->
      calculate_revenue_growth (Fin c) (Fin p)
      = Returns (Fin ((c - p) / p)%Qc)) /\
  calculate_revenue_growth (xint 110) (xint 100)
  = Returns (Fin (Q2Qc (1 # 10))).
Proof.
  split; [|split; [|split]].
  - intros x. reflexivity.
  - intros current previous H.
    unfold calculate_revenue_growth, py_truediv. now rewrite H.
  - intros c p Hp.
    unfold calculate_revenue_growth, py_truediv.
    rewrite xeqb_zero_Fin.
    apply Qc_eqb_neq in Hp. rewrite Hp. simpl. now rewrite Hp.
  - qc_closed.
Qed.

Lemma calculate_revenue_growth_spec_witness :
  calculate_revenue_growth (xint 90) (xint 150)
  = Returns (xdiv (xsub (xint 90) (xint 150)) (xint 150)).
Proof.
  apply (proj1 (proj2 calculate_revenue_growth_spec)). reflexivity.
Defined.

(** ** Grouping *)

Section GroupFacts.
Context {R K : Type} `{EqB K} (leb : K -> K -> bool) (key : R -> K).

Lemma groupby_sum_unfold (col : R -> Qc) (rows : list R) :
  groupby_sum leb key col rows
  = map (fun k => (k, sum (map col (filter (fun r => eqb (key r) k) rows))))
        (sort leb (unique (map key rows))).
Proof. unfold groupby_sum, groupby. now rewrite map_map. Qed.

Lemma groupby_mean_unfold (col : R -> Qc) (rows : list R) :
  groupby_mean leb key col rows
  = map (fun k => (k, mean (map col (filter (fun r => eqb (key r) k) rows))))
        (sort leb (unique (map key rows))).
Proof. unfold groupby_mean, groupby. now rewrite map_map. Qed.

(** The group keys are the keys that occur, each once. *)
Lemma group_keys_In (rows : list R) (k : K) :
  In k (sort leb (unique (map key rows))) <-> In k (map key rows).
Proof. now rewrite sort_In, unique_In. Qed.

Lemma group_keys_NoDup (rows : list R) :
  NoDup (sort leb (unique (map key rows))).
Proof. apply sort_NoDup, unique_NoDup. Qed.

Lemma group_keys_Permutation (rows : list R) (ks : list K) :
  NoDup ks -> (forall k, In k ks <-> In k (map key rows)) ->
  Permutation ks (sort leb (unique (map key rows))).
Proof.
  intros Hnd Hin. apply NoDup_Permutation.
  - exact Hnd.
  - apply group_keys_NoDup.
  - intros k. now rewrite Hin, group_keys_In.
Qed.

End GroupFacts.

(** ** calculate_average_order_value *)

(** C1.  The average order value is the mean, over the distinct order
    identifiers of the records in whatever order they are listed, of the
    sum of price over each order's records.  For an order with items
    priced 10 and 20 and an order with one item priced 15 it is 45/2,
    where the mean over the three items is 15. *)
Theorem calculate_average_order_value_per_order :
  (forall (records : list Sale) (ids : list string),
      NoDup ids ->
      (forall o, In o ids <-> In o (map order_id records)) ->
      calculate_average_order_value records
      = mean (map (order_total records) ids)) /\
  calculate_average_order_value two_orders = Fin (Q2Qc (45 # 2)) /\
  mean (map price two_orders) = Fin (Q2Qc 15).
Proof.
  split; [|split; qc_closed].
  intros records ids Hnd Hin.
  unfold calculate_average_order_value.
  rewrite groupby_sum_unfold, map_map. simpl.
  apply mean_Permutation. change (fun k => sum _) with (order_total records).
  apply Permutation_map, Permutation_sym.
  now apply group_keys_Permutation.
Qed.

Lemma calculate_average_order_value_per_order_witness :
  calculate_average_order_value two_orders
  = mean (map (order_total two_orders) ["B"; "A"]%string).
Proof.
  apply (proj1 calculate_average_order_value_per_order).
  - repeat constructor; simpl; intuition discriminate.
  - intros o; simpl; intuition.
Defined.

(** ** calculate_monthly_growth *)

Lemma Sorted_leb_NoDup_lt (l : list Z) :
  Sorted (fun a b => Z.leb a b = true) l -> NoDup l -> StronglySorted Z.lt l.
Proof.
  intros Hs Hnd. apply Sorted_StronglySorted in Hs.
  - induction Hs as [|a l Hs IH Hall]; constructor.
    + apply IH. now inversion Hnd.
    + inversion Hnd as [|? ? Hnotin _]; subst.
      rewrite Forall_forall in Hall |- *. intros b Hb.
      specialize (Hall b Hb). apply Z.leb_le in Hall.
      assert (a <> b) by (intros ->; contradiction). lia.
  - intros a b c Hab Hbc. apply Z.leb_le in Hab, Hbc. apply Z.leb_le. lia.
Qed.

Lemma Zleb_total (x y : Z) : Z.leb x y = true \/ Z.leb y x = true.
Proof. destruct (Z.leb_spec x y); [now left|right]. apply Z.leb_le. lia. Qed.

(** pandas' [s / s.shift(1) - 1] is the relative change. *)
Lemma pct_formula (previous current : Qc) :
  xsub (xdiv (Fin current) (Fin previous)) (xint 1)
  = percent_change previous current.
Proof.
  unfold percent_change, xsub; simpl.
  destruct (Qc_eqb previous 0) eqn:E.
  - apply Qc_eqb_eq in E. subst previous.
    replace (current + - 0)%Qc with current by ring.
    destruct (Qc_eqb current 0); [reflexivity|].
    destruct (Qc_ltb 0 current); reflexivity.
  - apply Qc_eqb_neq in E. simpl. f_equal.
    change (Qc_of_Z 1) with 1%Qc. now field.
Qed.

Lemma percent_change_nonzero (previous current : Qc) :
  previous <> 0%Qc ->
  percent_change previous current = Fin ((current - previous) / previous)%Qc.
Proof.
  intros Hp. unfold percent_change, xsub; simpl.
  apply Qc_eqb_neq in Hp. now rewrite Hp.
Qed.

Section PctChange.
Context {K : Type}.

Lemma pct_change_after (p : xnum) (s : list (K * Qc)) :
  combine (map fst (float_series s))
          (map pct_step (combine (map snd (float_series s))
                                 (p :: removelast (map snd (float_series s)))))
  = match s with
    | [] => []
    | e :: t => (fst e, pct_step (Fin (snd e), p)) :: growth_after (snd e) t
    end.
Proof.
  revert p. induction s as [|e t IH]; intros p; [reflexivity|].
  destruct t as [|e2 t2]; [reflexivity|].
  specialize (IH (Fin (snd e))).
  cbn [float_series map fst snd combine removelast] in IH |- *.
  f_equal. etransitivity; [exact IH|].
  cbn [growth_after]. unfold pct_step; cbn [fst snd].
  now rewrite pct_formula.
Qed.

Lemma pct_change_month_over_month (s : list (K * Qc)) :
  pct_change (float_series s) = month_over_month s.
Proof.
  unfold pct_change, shift1.
  etransitivity; [apply (pct_change_after NaN s)|].
  destruct s; reflexivity.
Qed.

End PctChange.

(** C4.  The monthly growth is the month-over-month change of the monthly
    revenue: the months are those of the records in strictly ascending
    order, the first of them has NaN, and every later month has the change
    of its revenue relative to the revenue of the month listed before it,
    which is [(current - previous) / previous] when that revenue is not
    zero.  Revenues 100, 150, 90 give NaN, 1/2, -2/5. *)
Theorem calculate_monthly_growth_month_over_month :
  (forall records : list Sale,
      calculate_monthly_growth records
      = month_over_month (calculate_monthly_revenue records) /\
      StronglySorted Z.lt (map fst (calculate_monthly_revenue records)) /\
      (forall m, In m (map fst (calculate_monthly_revenue records))
                 <-> In m (map month records))) /\
  (forall previous current : Qc,
      previous <> 0%Qc ->
      percent_change previous current
      = Fin ((current - previous) / previous)%Qc) /\
  calculate_monthly_revenue three_months
  = [(4, Qc_of_Z 100); (5, Qc_of_Z 150); (7, Qc_of_Z 90)] /\
  calculate_monthly_growth three_months
  = [(4, NaN); (5, Fin (Q2Qc (1 # 2))); (7, Fin (Q2Qc (-2 # 5)))].
Proof.
  split; [|split; [exact percent_change_nonzero|split; qc_closed]].
  intros records.
  assert (Hkeys : map fst (calculate_monthly_revenue records)
                  = sort Z.leb (unique (map month records))).
  { unfold calculate_monthly_revenue.
    rewrite groupby_sum_unfold, map_map. apply map_id. }
  split; [|split].
  - apply pct_change_month_over_month.
  - rewrite Hkeys. apply Sorted_leb_NoDup_lt.
    + apply sort_Sorted, Zleb_total.
    + apply group_keys_NoDup.
  - intros m. rewrite Hkeys. apply group_keys_In.
Qed.

Lemma calculate_monthly_growth_month_over_month_witness :
  percent_change (Qc_of_Z 100) (Qc_of_Z 150)
  = Fin ((Qc_of_Z 150 - Qc_of_Z 100) / Qc_of_Z 100)%Qc.
Proof.
  apply (proj1 (proj2 calculate_monthly_growth_month_over_month)).
  intros E. discriminate (f_equal (fun q : Qc => Qnum (this q)) E).
Defined.

(** ** add_delivery_speed and calculate_average_delivery_time *)

Lemma dropna_defined_speeds (records : list SaleSpeed) :
  dropna (map delivery_speed_days records) = defined_speeds records.
Proof.
  unfold dropna, defined_speeds.
  induction records as [|r records IH]; [reflexivity|].
  cbn [map flat_map filter].
  destruct (delivery_speed_days r) eqn:E; cbn [map app];
    rewrite ?E, IH; reflexivity.
Qed.

(** C8.  [add_delivery_speed] keeps the records as they are and in order;
    a record without a delivery timestamp gets a missing delivery speed,
    and a record with one gets the whole days between purchase and
    delivery.  The average delivery time is the mean of the defined
    delivery speeds: records with a missing speed change nothing, and with
    speeds 2, missing, 4 the average is 3. *)
Theorem average_delivery_time_ignores_missing :
  (forall records : list Sale,
      map sale (add_delivery_speed records) = records /\
      (forall r, In r (add_delivery_speed records) ->
                 match order_delivered_customer_date (sale r) with
                 | None => delivery_speed_days r = None
                 | Some delivered =>
                     delivery_speed_days r
                     = Some (timedelta_days delivered
                               (order_purchase_timestamp (sale r)))
                 end)) /\
  (forall records : list SaleSpeed,
      calculate_average_delivery_time records
      = mean (defined_speeds records)) /\
  (forall (before after : list SaleSpeed) (r : SaleSpeed),
      delivery_speed_days r = None ->
      calculate_average_delivery_time (before ++ r :: after)
      = calculate_average_delivery_time (before ++ after)) /\
  map delivery_speed_days (add_delivery_speed three_deliveries)
  = [Some 2; None; Some 4] /\
  calculate_average_delivery_time (add_delivery_speed three_deliveries)
  = Fin (Qc_of_Z 3).
Proof.
  split; [|split; [|split; [|split; [reflexivity|qc_closed]]]].
  - intros records. split.
    + unfold add_delivery_speed. rewrite map_map. apply map_id.
    + intros r Hr. unfold add_delivery_speed in Hr.
      apply in_map_iff in Hr. destruct Hr as [s [<- _]]; simpl.
      now destruct (order_delivered_customer_date s).
  - intros records. unfold calculate_average_delivery_time.
    now rewrite dropna_defined_speeds.
  - intros before after r Hr. unfold calculate_average_delivery_time.
    rewrite !dropna_defined_speeds. unfold defined_speeds.
    rewrite !filter_app. simpl. now rewrite Hr.
Qed.

Lemma average_delivery_time_ignores_missing_witness :
  calculate_average_delivery_time ([] ++ undelivered :: [])
  = calculate_average_delivery_time ([] ++ []).
Proof.
  apply (proj1 (proj2 (proj2 average_delivery_time_ignores_missing))).
  reflexivity.
Defined.

(** ** Joins *)

Section MergeFacts.
Context {L R K : Type} `{EqB K} (keyl : L -> K) (keyr : R -> K).

Lemma merge_In (left : list L) (right : list R) (l : L) (r : R) :
  In (l, r) (merge keyl keyr left right)
  <-> In l left /\ In r right /\ keyl l = keyr r.
Proof.
  unfold merge. rewrite in_flat_map. split.
  - intros [l' [Hl' Hin]]. apply in_map_iff in Hin.
    destruct Hin as [r' [E Hr']]. inversion E; subst.
    apply filter_In in Hr'. destruct Hr' as [Hr' Hk].
    apply eqb_eq in Hk. auto.
  - intros [Hl [Hr Hk]]. exists l. split; [assumption|].
    apply in_map, filter_In. split; [assumption|now apply eqb_eq].
Qed.

Lemma merge_app (left1 left2 : list L) (right : list R) :
  merge keyl keyr (left1 ++ left2) right
  = merge keyl keyr left1 right ++ merge keyl keyr left2 right.
Proof. unfold merge. apply flat_map_app. Qed.

(** A left row whose key no right row has joins with nothing. *)
Lemma matches_absent (right : list R) (k : K) :
  ~ In k (map keyr right) -> filter (fun r => eqb k (keyr r)) right = [].
Proof.
  intros Hk. induction right as [|r right IH]; [reflexivity|]; simpl.
  destruct (eqb_spec k (keyr r)) as [E|_].
  - exfalso. apply Hk. left. now symmetry.
  - apply IH. intros Hin. apply Hk. now right.
Qed.

(** With unique right keys a left row joins with at most one right row,
    and with exactly one when its key is among them. *)
Lemma matches_unique (right : list R) (k : K) :
  NoDup (map keyr right) ->
  (List.length (filter (fun r => eqb k (keyr r)) right) <= 1)%nat.
Proof.
  induction right as [|r right IH]; simpl; [lia|].
  intros Hnd. inversion Hnd as [|? ? Hnotin Hnd']; subst.
  destruct (eqb_spec k (keyr r)) as [->|_]; [|now apply IH].
  rewrite matches_absent by assumption. simpl. lia.
Qed.

Lemma matches_present (right : list R) (k : K) :
  NoDup (map keyr right) -> In k (map keyr right) ->
  List.length (filter (fun r => eqb k (keyr r)) right) = 1%nat.
Proof.
  induction right as [|r right IH]; simpl; [tauto|].
  intros Hnd Hin. inversion Hnd as [|? ? Hnotin Hnd']; subst.
  destruct (eqb_spec k (keyr r)) as [->|Hne].
  - now rewrite matches_absent.
  - apply IH; [assumption|]. destruct Hin; [congruence|assumption].
Qed.

Lemma merge_length_le (left : list L) (right : list R) :
  NoDup (map keyr right) ->
  (List.length (merge keyl keyr left right) <= List.length left)%nat.
Proof.
  intros Hnd. unfold merge.
  induction left as [|l left IH]; simpl; [lia|].
  rewrite length_app, length_map.
  pose proof (matches_unique right (keyl l) Hnd). lia.
Qed.

Lemma merge_length_eq (left : list L) (right : list R) :
  NoDup (map keyr right) ->
  (forall l, In l left -> In (keyl l) (map keyr right)) ->
  List.length (merge keyl keyr left right) = List.length left.
Proof.
  intros Hnd Hall. unfold merge.
  induction left as [|l left IH]; simpl; [reflexivity|].
  rewrite length_app, length_map, IH.
  - rewrite (matches_present right (keyl l) Hnd); [reflexivity|].
    apply Hall. now left.
  - intros l' Hl'. apply Hall. now right.
Qed.

End MergeFacts.

(** ** build_sales_data *)

(** C5.  The sales rows are the rows [sales_row i o] of an order item
    [i] and an order [o] with the same order identifier; an item whose
    order identifier no order has adds no row.  On an orders table of the
    data model, where the order identifier is unique, the sales rows are
    at most as many as the order items, and exactly as many when every
    item's order identifier is the identifier of an order. *)
Theorem build_sales_data_inner_join :
  forall (orders : list Order) (order_items : list OrderItem),
    (forall s, In s (build_sales_data orders order_items)
               <-> exists i o, In i order_items /\ In o orders /\
                               i_order_id i = o_order_id o /\
                               s = sales_row i o) /\
    (forall before after i,
        order_items = before ++ i :: after ->
        ~ In (i_order_id i) (map o_order_id orders) ->
        build_sales_data orders order_items
        = build_sales_data orders (before ++ after)) /\
    (NoDup (map o_order_id orders) ->
     (List.length (build_sales_data orders order_items)
      <= List.length order_items)%nat) /\
    (NoDup (map o_order_id orders) ->
     (forall i, In i order_items ->
                In (i_order_id i) (map o_order_id orders)) ->
     List.length (build_sales_data orders order_items)
     = List.length order_items).
Proof.
  intros orders order_items. unfold build_sales_data.
  split; [|split; [|split]].
  - intros s. rewrite in_map_iff. split.
    + intros [[i o] [E Hin]]. apply merge_In in Hin.
      exists i, o. simpl in E. intuition.
    + intros [i [o [Hi [Ho [Hk ->]]]]]. exists (i, o).
      split; [reflexivity|]. now apply merge_In.
  - intros before after i -> Hi. f_equal.
    rewrite !merge_app. f_equal. unfold merge at 1. cbn [flat_map].
    now rewrite (matches_absent o_order_id orders (i_order_id i) Hi).
  - intros Hnd. rewrite length_map. now apply merge_length_le.
  - intros Hnd Hall. rewrite length_map. now apply merge_length_eq.
Qed.

Lemma build_sales_data_inner_join_witness :
  build_sales_data orders_other ([] ++ item_of "A" 1 10 :: [])
  = build_sales_data orders_other ([] ++ []) /\
  (List.length (build_sales_data orders_once one_item)
   <= List.length one_item)%nat /\
  List.length (build_sales_data orders_once one_item)
  = List.length one_item.
Proof.
  split; [|split].
  - apply (proj1 (proj2 (build_sales_data_inner_join orders_other _))
             [] [] (item_of "A" 1 10) eq_refl).
    simpl. intuition discriminate.
  - apply (proj1 (proj2 (proj2
             (build_sales_data_inner_join orders_once one_item)))).
    repeat constructor. simpl. tauto.
  - apply (proj2 (proj2 (proj2
             (build_sales_data_inner_join orders_once one_item)))).
    + repeat constructor. simpl. tauto.
    + intros i [<-|[]]. simpl. now left.
Defined.

(** ** calculate_category_revenue *)

Lemma StronglySorted_impl {A} (P Q : A -> A -> Prop) (l : list A) :
  (forall a b, P a b -> Q a b) -> StronglySorted P l -> StronglySorted Q l.
Proof.
  intros HPQ. induction 1 as [|a l _ IH Hall]; constructor.
  - exact IH.
  - eapply Forall_impl; [|exact Hall]. apply HPQ.
Qed.

Lemma sort_values_desc_sorted {K} (s : list (K * Qc)) :
  StronglySorted (fun a b => (snd b <= snd a)%Qc) (sort_values_desc s).
Proof.
  unfold sort_values_desc.
  apply StronglySorted_impl
    with (P := fun a b : K * Qc => Qc_leb (snd b) (snd a) = true).
  - intros a b. apply Qc_leb_le.
  - apply Sorted_StronglySorted.
    + intros a b c Hab Hbc. apply Qc_leb_le in Hab, Hbc. apply Qc_leb_le.
      eapply Qcle_trans; eassumption.
    + apply sort_Sorted. intros a b. apply Qc_leb_total.
Qed.

Section DropnaFacts.
Context {R K : Type} `{EqB K} (key : R -> option K).

Lemma dropna_key_group (col : R -> Qc) (rows : list R) (k : K) :
  map (fun m => col (snd m))
      (filter (fun m => eqb (fst m) k) (dropna_key key rows))
  = map col (filter (fun r => eqb (key r) (Some k)) rows).
Proof.
  unfold dropna_key.
  induction rows as [|r rows IH]; [reflexivity|].
  cbn [flat_map filter].
  destruct (key r) as [k'|] eqn:E; cbn [app filter fst eqb EqB_option].
  - destruct (eqb k' k); cbn [map snd]; now rewrite IH.
  - exact IH.
Qed.

Lemma dropna_key_In (rows : list R) (k : K) :
  In k (map fst (dropna_key key rows)) <-> In (Some k) (map key rows).
Proof.
  unfold dropna_key.
  induction rows as [|r rows IH]; [reflexivity|].
  cbn [flat_map map]. rewrite map_app, in_app_iff, IH.
  destruct (key r) as [k'|]; simpl; intuition congruence.
Qed.

End DropnaFacts.

Lemma merge_right_absent {L R K} `{EqB K} (keyl : L -> K) (keyr : R -> K)
  (left : list L) (before after : list R) (r : R) :
  ~ In (keyr r) (map keyl left) ->
  merge keyl keyr left (before ++ r :: after)
  = merge keyl keyr left (before ++ after).
Proof.
  unfold merge. induction left as [|l left IH]; intros Hr; [reflexivity|].
  cbn [flat_map]. rewrite IH by (intros Hin; apply Hr; now right).
  f_equal. f_equal. rewrite !filter_app. cbn [filter].
  destruct (eqb_spec (keyl l) (keyr r)) as [E|_]; [|reflexivity].
  exfalso. apply Hr. left. exact E.
Qed.

(** C6.  The category revenues are listed from the highest to the lowest,
    one entry per category that a joined row has; the revenue of a
    category is the sum of price over the rows of the join of records and
    products that carry the category; and a record whose product
    identifier is not in the catalog can be left out without changing the
    result. *)
Theorem calculate_category_revenue_sorted_inner_join :
  forall (records : list Sale) (products : list Product),
    StronglySorted (fun a b => (snd b <= snd a)%Qc)
                   (calculate_category_revenue records products) /\
    NoDup (map fst (calculate_category_revenue records products)) /\
    (forall c v,
        In (c, v) (calculate_category_revenue records products)
        <-> (exists p s, In p products /\ In s records /\
                         p_product_id p = product_id s /\
                         p_product_category_name p = Some c) /\
            v = category_total records products c) /\
    (forall before after s,
        records = before ++ s :: after ->
        ~ In (product_id s) (map p_product_id products) ->
        calculate_category_revenue records products
        = calculate_category_revenue (before ++ after) products).
Proof.
  intros records products. unfold calculate_category_revenue.
  set (merged := merge p_product_id product_id products records).
  set (named := dropna_key (fun m => p_product_category_name (fst m)) merged).
  assert (Hperm : Permutation
            (sort_values_desc
               (groupby_sum String.leb fst
                            (fun m => price (snd (snd m))) named))
            (map (fun c => (c, category_total records products c))
                 (sort String.leb (unique (map fst named))))).
  { unfold sort_values_desc. rewrite sort_Permutation, groupby_sum_unfold.
    apply Permutation_refl'. apply map_ext. intros c. f_equal.
    unfold category_total. fold merged. f_equal.
    apply (dropna_key_group (fun m => p_product_category_name (fst m))
                            (fun m => price (snd m)) merged c). }
  split; [|split; [|split]].
  - apply sort_values_desc_sorted.
  - eapply Permutation_NoDup.
    + apply Permutation_sym, Permutation_map, Hperm.
    + rewrite map_map. cbn [fst]. rewrite map_id. apply group_keys_NoDup.
  - intros c v. split.
    + intros Hin. apply (Permutation_in _ Hperm) in Hin.
      apply in_map_iff in Hin. destruct Hin as [c' [E Hc']].
      inversion E; subst c' v. split; [|reflexivity].
      apply group_keys_In, dropna_key_In, in_map_iff in Hc'.
      destruct Hc' as [[p s] [Hcat Hps]]. apply merge_In in Hps.
      exists p, s. simpl in Hcat. intuition.
    + intros [[p [s [Hp [Hs [Hid Hcat]]]]] ->].
      apply (Permutation_in _ (Permutation_sym Hperm)).
      apply in_map_iff. exists c. split; [reflexivity|].
      apply group_keys_In, dropna_key_In, in_map_iff.
      exists (p, s). split; [exact Hcat|]. now apply merge_In.
  - intros before after s -> Hs. subst named merged.
    now rewrite (merge_right_absent p_product_id product_id products
                   before after s Hs).
Qed.

Lemma calculate_category_revenue_sorted_inner_join_witness :
  calculate_category_revenue
    ([sale_of "A" 1 "p1" 10 1] ++ sale_of "B" 1 "p9" 99 1 :: []) catalog
  = calculate_category_revenue ([sale_of "A" 1 "p1" 10 1] ++ []) catalog.
Proof.
  apply (proj2 (proj2 (proj2
           (calculate_category_revenue_sorted_inner_join _ catalog)))
           [sale_of "A" 1 "p1" 10 1] [] (sale_of "B" 1 "p9" 99 1) eq_refl).
  simpl. intuition discriminate.
Defined.

Example calculate_category_revenue_sample :
  calculate_category_revenue catalog_sales catalog
  = [("books", Qc_of_Z 30); ("toys", Qc_of_Z 10)].
Proof. qc_closed. Qed.

(** ** calculate_review_score_distribution *)

Lemma isin_unique {A} `{EqB A} (l : list A) (x : A) :
  isin (unique l) x = isin l x.
Proof.
  apply eq_true_iff_eq. now rewrite !isin_In, unique_In.
Qed.

Lemma count_cons {A} `{EqB A} (x a : A) (l : list A) :
  count x (a :: l) = ((if eqb x a then 1 else 0) + count x l)%nat.
Proof. unfold count. simpl. now destruct (eqb x a). Qed.

(** Over a duplicate-free list of values that covers [l], the counts add
    up to the length of [l]. *)
Lemma list_sum_indicator {A} `{EqB A} (ks : list A) (a : A) :
  NoDup ks -> In a ks ->
  list_sum (map (fun k => if eqb k a then 1 else 0)%nat ks) = 1%nat.
Proof.
  induction 1 as [|k ks Hnotin Hnd IH]; simpl; [tauto|].
  intros [->|Hin].
  - rewrite eqb_refl. f_equal.
    clear IH Hnd. induction ks as [|k ks IH]; [reflexivity|]; simpl.
    destruct (eqb_spec k a) as [->|_].
    + exfalso. apply Hnotin. now left.
    + apply IH. intros Hin. apply Hnotin. now right.
  - destruct (eqb_spec k a) as [->|_]; [contradiction|]. now apply IH.
Qed.

Lemma list_sum_map_add {A} (f g : A -> nat) (l : list A) :
  list_sum (map (fun k => f k + g k)%nat l)
  = (list_sum (map f l) + list_sum (map g l))%nat.
Proof. induction l as [|k l IH]; simpl; [reflexivity|]. rewrite IH. lia. Qed.

Lemma counts_total {A} `{EqB A} (ks l : list A) :
  NoDup ks -> (forall x, In x l -> In x ks) ->
  list_sum (map (fun k => count k l) ks) = List.length l.
Proof.
  intros Hnd. induction l as [|a l IH]; intros Hcover.
  - clear Hnd Hcover. unfold count; simpl.
    induction ks as [|k ks IHk]; simpl; [reflexivity|exact IHk].
  - rewrite (map_ext _ (fun k => (if eqb k a then 1 else 0) + count k l)%nat)
      by (intros k; apply count_cons).
    rewrite list_sum_map_add, list_sum_indicator, IH.
    + reflexivity.
    + intros x Hx. apply Hcover. now right.
    + exact Hnd.
    + apply Hcover. now left.
Qed.

Lemma Sorted_map {A B} (P : B -> B -> Prop) (f : A -> B) (l : list A) :
  Sorted (fun a b => P (f a) (f b)) l -> Sorted P (map f l).
Proof.
  induction 1 as [|a l _ IH Hhd]; simpl; constructor.
  - exact IH.
  - destruct Hhd; simpl; constructor. assumption.
Qed.

(** Sorting commutes with a map that keeps the order. *)
Lemma sort_map {A B} (lebA : A -> A -> bool) (lebB : B -> B -> bool)
  (g : A -> B) (l : list A) :
  (forall a b, lebB (g a) (g b) = lebA a b) ->
  sort lebB (map g l) = map g (sort lebA l).
Proof.
  intros Hg. unfold sort.
  induction l as [|x l IH]; [reflexivity|]. cbn [map fold_right].
  rewrite IH. generalize (fold_right (insert lebA) [] l). clear IH.
  intros t. induction t as [|y t IH]; [reflexivity|].
  cbn [map insert]. rewrite Hg. destruct (lebA x y); [reflexivity|].
  cbn [map]. now rewrite IH.
Qed.

(** The counts of a value count add up to the number of entries. *)
Lemma value_counts_total {A} `{EqB A} (vals : list A) :
  list_sum (map snd (sort (fun a b : A * nat => Nat.leb (snd b) (snd a))
                          (map (fun v => (v, count v vals)) (unique vals))))
  = List.length vals.
Proof.
  rewrite (Permutation_list_sum
             (Permutation_map snd (sort_Permutation _ _))).
  rewrite map_map. cbn [snd].
  apply counts_total; [apply unique_NoDup|].
  intros x. apply unique_In.
Qed.

(** The two distributions of a list of scores, the exact one and the one
    in binary64, list the same scores in the same order, each with its
    count over the number of entries. *)
Lemma value_counts_sort_index (vals : list Z) :
  exists keys : list Z,
    Permutation keys (unique vals) /\
    sort_index Z.leb (value_counts_normalize vals)
    = map (fun v => (v, frequency vals v)) keys /\
    sort_index Z.leb (value_counts_normalize_f64 vals)
    = map (fun v => (v, Binary64.quot (count v vals) (List.length vals)))
          keys.
Proof.
  unfold value_counts_normalize, value_counts_normalize_f64.
  cbv zeta. rewrite value_counts_total.
  set (counts := map (fun v => (v, count v vals)) (unique vals)).
  set (sorted := sort (fun a b : Z * nat => Nat.leb (snd b) (snd a)) counts).
  set (ranked := sort_index Z.leb sorted).
  assert (Hperm : Permutation ranked counts).
  { subst ranked sorted. unfold sort_index.
    now rewrite !sort_Permutation. }
  assert (Hsnd : forall c, In c ranked -> snd c = count (fst c) vals).
  { intros c Hc. apply (Permutation_in _ Hperm) in Hc.
    subst counts. apply in_map_iff in Hc.
    now destruct Hc as [v [<- _]]. }
  exists (map fst ranked). split; [|split].
  - rewrite (Permutation_map fst Hperm). subst counts.
    rewrite map_map. cbn [fst]. now rewrite map_id.
  - unfold sort_index.
    rewrite (sort_map (fun a b : Z * nat => Z.leb (fst a) (fst b)))
      by reflexivity.
    fold (sort_index Z.leb sorted). fold ranked.
    rewrite map_map. apply map_ext_in. intros c Hc.
    unfold frequency. now rewrite <- (Hsnd c Hc).
  - unfold sort_index.
    rewrite (sort_map (fun a b : Z * nat => Z.leb (fst a) (fst b)))
      by reflexivity.
    fold (sort_index Z.leb sorted). fold ranked.
    rewrite map_map. apply map_ext_in. intros c Hc.
    now rewrite <- (Hsnd c Hc).
Qed.

(** C7, as the claim states it: the proportions do not always sum to 1.0.
    Six relevant reviews with the scores 3, 4, 4, 4, 4 and 5 give the
    shares 1/6, 4/6 and 1/6, each rounded to binary64, and their sum,
    taken in the order of the series, is 1 - 2^-53, the float just under
    1.0. *)
Lemma review_score_shares_sum_counterexample :
  relevant_scores six_sales six_reviews = [3; 4; 4; 4; 4; 5] /\
  calculate_review_score_distribution_f64 six_sales six_reviews
  = [(3, Binary64.quot 1 6); (4, Binary64.quot 4 6);
     (5, Binary64.quot 1 6)] /\
  Binary64.sum (map snd (calculate_review_score_distribution_f64
                           six_sales six_reviews))
  = Binary64.dyadic (2 ^ 53 - 1) (-53) /\
  Binary64.sum (map snd (calculate_review_score_distribution_f64
                           six_sales six_reviews))
  <> Binary64.of_nat 1.
Proof.
  split; [reflexivity|]. split; [reflexivity|].
  split; [vm_compute; reflexivity|]. vm_compute. discriminate.
Qed.

(** C7, amended.  The distribution lists the scores of the relevant
    reviews in strictly ascending order; a score is listed exactly when a
    relevant review has it, with the share of the relevant reviews that
    have it.  As floats the shares are the counts over the number of
    relevant reviews, each quotient rounded once, and the counts of the
    listed scores add up to that number; the sum of the rounded shares is
    1.0 only up to rounding.  Scores 5, 5, 4, 3 give 3: 0.25, 4: 0.25,
    5: 0.5, which are exact and add up to 1.0. *)
Theorem calculate_review_score_distribution_frequencies :
  (forall (records : list Sale) (reviews : list Review),
      let scores := relevant_scores records reviews in
      let shares := calculate_review_score_distribution records reviews in
      let shares64 :=
        calculate_review_score_distribution_f64 records reviews in
      StronglySorted Z.lt (map fst shares) /\
      (forall s p,
          In (s, p) shares <-> In s scores /\ p = frequency scores s) /\
      shares64
      = map (fun s => (s, Binary64.quot (count s scores)
                                        (List.length scores)))
            (map fst shares) /\
      list_sum (map (fun s => count s scores) (map fst shares))
      = List.length scores) /\
  relevant_scores reviewed_sales four_reviews = [5; 5; 4; 3] /\
  calculate_review_score_distribution reviewed_sales four_reviews
  = [(3, Q2Qc (1 # 4)); (4, Q2Qc (1 # 4)); (5, Q2Qc (1 # 2))] /\
  calculate_review_score_distribution_f64 reviewed_sales four_reviews
  = [(3, Binary64.dyadic 1 (-2)); (4, Binary64.dyadic 1 (-2));
     (5, Binary64.dyadic 1 (-1))] /\
  Binary64.sum (map snd (calculate_review_score_distribution_f64
                           reviewed_sales four_reviews))
  = Binary64.of_nat 1.
Proof.
  split; [|split; [reflexivity|split; [qc_closed|split]]];
    [|vm_compute; reflexivity|vm_compute; reflexivity].
  intros records reviews scores shares shares64.
  assert (Hscores :
            map r_review_score
                (filter (fun r => isin (unique (map order_id records))
                                       (r_order_id r)) reviews)
            = scores).
  { subst scores. unfold relevant_scores. f_equal.
    apply filter_ext. intros r. apply isin_unique. }
  destruct (value_counts_sort_index scores) as [keys [Hkeys [Hq Hf]]].
  assert (Hshares : shares = map (fun v => (v, frequency scores v)) keys).
  { subst shares. unfold calculate_review_score_distribution.
    rewrite Hscores. exact Hq. }
  assert (Hfst : map fst shares = keys).
  { rewrite Hshares, map_map. cbn [fst]. apply map_id. }
  split; [|split; [|split]].
  - apply Sorted_leb_NoDup_lt.
    + apply Sorted_map with (P := fun a b => Z.leb a b = true).
      subst shares. unfold calculate_review_score_distribution, sort_index.
      apply sort_Sorted. intros a b. apply Zleb_total.
    + rewrite Hfst. eapply Permutation_NoDup.
      * apply Permutation_sym, Hkeys.
      * apply unique_NoDup.
  - intros s p. rewrite Hshares. split.
    + intros Hin. apply in_map_iff in Hin.
      destruct Hin as [v [E Hv]]. inversion E; subst.
      split; [|reflexivity].
      apply (proj1 (unique_In scores s)), (Permutation_in _ Hkeys), Hv.
    + intros [Hs ->]. apply in_map_iff. exists s. split; [reflexivity|].
      apply (Permutation_in _ (Permutation_sym Hkeys)).
      now apply unique_In.
  - rewrite Hfst. subst shares64.
    unfold calculate_review_score_distribution_f64.
    rewrite Hscores. exact Hf.
  - rewrite Hfst.
    rewrite (Permutation_list_sum (Permutation_map _ Hkeys)).
    apply counts_total; [apply unique_NoDup|].
    intros x. apply unique_In.
Qed.

(** ** drop_duplicates *)

Section DropDuplicatesFacts.
Context {R T : Type} `{EqB T} (cols : R -> T).

Lemma drop_duplicates_from_sub (seen : list T) (rows : list R) (r : R) :
  In r (drop_duplicates_from cols seen rows) ->
  In r rows /\ ~ In (cols r) seen.
Proof.
  revert seen. induction rows as [|a rows IH]; intros seen; simpl; [tauto|].
  destruct (isin seen (cols a)) eqn:E.
  - intros Hin. apply IH in Hin. tauto.
  - intros [->|Hin].
    + split; [now left|]. rewrite <- isin_In. congruence.
    + apply IH in Hin. simpl in Hin. tauto.
Qed.

Lemma drop_duplicates_from_keeps (seen : list T) (rows : list R) (r : R) :
  In r rows -> ~ In (cols r) seen ->
  In (cols r) (map cols (drop_duplicates_from cols seen rows)).
Proof.
  revert seen. induction rows as [|a rows IH]; intros seen; simpl; [tauto|].
  intros Hin Hseen. destruct (isin seen (cols a)) eqn:E.
  - destruct Hin as [->|Hin]; [|now apply IH].
    apply isin_In in E. contradiction.
  - simpl. destruct (eqb_spec (cols a) (cols r)) as [Heq|Hne]; [now left|].
    right. destruct Hin as [->|Hin]; [congruence|].
    apply IH; [assumption|]. simpl. tauto.
Qed.

Lemma drop_duplicates_from_NoDup (seen : list T) (rows : list R) :
  NoDup (map cols (drop_duplicates_from cols seen rows)).
Proof.
  revert seen. induction rows as [|a rows IH]; intros seen; simpl.
  - constructor.
  - destruct (isin seen (cols a)); [apply IH|]. simpl. constructor.
    + intros Hin. apply in_map_iff in Hin. destruct Hin as [r [E Hr]].
      apply drop_duplicates_from_sub in Hr. destruct Hr as [_ Hr].
      apply Hr. left. now symmetry.
    + apply IH.
Qed.

End DropDuplicatesFacts.

Lemma drop_duplicates_In {T} `{EqB T} (rows : list T) (r : T) :
  In r (drop_duplicates (fun x => x) rows) <-> In r rows.
Proof.
  unfold drop_duplicates. split.
  - intros Hin. now apply drop_duplicates_from_sub in Hin.
  - intros Hin.
    pose proof (drop_duplicates_from_keeps (fun x => x) [] rows r Hin
                  (fun F : In r [] => F)) as Hk.
    now rewrite map_id in Hk.
Qed.

Lemma drop_duplicates_NoDup {T} `{EqB T} (rows : list T) :
  NoDup (drop_duplicates (fun x => x) rows).
Proof.
  unfold drop_duplicates.
  rewrite <- (map_id (drop_duplicates_from _ _ _)).
  apply drop_duplicates_from_NoDup.
Qed.

Lemma NoDup_map_on {A B} (f : A -> B) (l : list A) :
  NoDup l ->
  (forall x y, In x l -> In y l -> f x = f y -> x = y) ->
  NoDup (map f l).
Proof.
  induction 1 as [|a l Hnotin Hnd IH]; intros Hinj; simpl; constructor.
  - intros Hin. apply in_map_iff in Hin. destruct Hin as [b [E Hb]].
    assert (b = a) by (apply Hinj; simpl; auto). now subst.
  - apply IH. intros x y Hx Hy. apply Hinj; now right.
Qed.

Lemma NoDup_map_eq {A B} (f : A -> B) (l : list A) (x y : A) :
  NoDup (map f l) -> In x l -> In y l -> f x = f y -> x = y.
Proof.
  induction l as [|a l IH]; simpl; [tauto|].
  intros Hnd Hx Hy E. inversion Hnd as [|? ? Hnotin Hnd']; subst.
  destruct Hx as [->|Hx], Hy as [->|Hy].
  - reflexivity.
  - exfalso. apply Hnotin. rewrite E. now apply in_map.
  - exfalso. apply Hnotin. rewrite <- E. now apply in_map.
  - now apply IH.
Qed.

Lemma filter_keeps_distinct_keys {A B} (key : A -> B) (keep : A -> bool) :
  forall rows : list A,
    NoDup (map key rows) -> NoDup (map key (filter keep rows)).
Proof.
  intros rows. induction rows as [|a rows IH]; simpl; [auto|].
  intros Hnd. inversion Hnd as [|? ? Hnotin Hnd']; subst.
  destruct (keep a); simpl; [|now apply IH].
  constructor; [|now apply IH].
  intros Hin. apply Hnotin. apply in_map_iff in Hin.
  destruct Hin as [b [E Hb]]. apply filter_In in Hb.
  rewrite <- E. apply in_map. tauto.
Qed.

(** ** calculate_delivery_review_correlation *)

Section DeliveryReview.
Variables (sales : list SaleTimed) (reviews : list Review).

Lemma per_order_rows_In (row : string * option Z * string * Z) :
  In row (per_order_rows sales reviews)
  <-> exists s r, In s sales /\ In r reviews /\
                  timed_order_id s = r_order_id r /\
                  row = per_order_columns (s, r).
Proof.
  unfold per_order_rows. rewrite drop_duplicates_In, in_map_iff. split.
  - intros [[s r] [E Hin]]. apply merge_In in Hin.
    exists s, r. simpl in *. intuition.
  - intros [s [r [Hs [Hr [Hk ->]]]]]. exists (s, r).
    split; [reflexivity|]. apply merge_In. auto.
Qed.

(** Each order has at most one review. *)
Hypothesis one_review : NoDup (map r_order_id reviews).

(** The sales rows of an order share the delivery speed and category. *)
Hypothesis one_delivery :
  forall s1 s2,
    In s1 sales -> In s2 sales -> timed_order_id s1 = timed_order_id s2 ->
    delivery_speed_days (speed s1) = delivery_speed_days (speed s2)
    /\ delivery_time s1 = delivery_time s2.

Lemma per_order_rows_one_per_order :
  NoDup (map row_order_id (per_order_rows sales reviews)).
Proof.
  apply NoDup_map_on.
  - unfold per_order_rows. apply drop_duplicates_NoDup.
  - intros x y Hx Hy E.
    apply per_order_rows_In in Hx, Hy.
    destruct Hx as [s1 [r1 [Hs1 [Hr1 [Hk1 ->]]]]].
    destruct Hy as [s2 [r2 [Hs2 [Hr2 [Hk2 ->]]]]].
    unfold per_order_columns, row_order_id in *. cbn [fst snd] in *.
    destruct (one_delivery s1 s2 Hs1 Hs2 E) as [Hd Ht].
    assert (r1 = r2).
    { apply (NoDup_map_eq r_order_id reviews); try assumption. congruence. }
    subst r2. now rewrite E, Hd, Ht.
Qed.

Lemma order_observed_once (s : SaleTimed) (r : Review) :
  In s sales -> In r reviews -> r_order_id r = timed_order_id s ->
  filter (fun row => eqb (timed_order_id s) (row_order_id row))
         (category_observations (per_order_rows sales reviews)
                                (delivery_time s))
  = [per_order_columns (s, r)].
Proof.
  intros Hs Hr Hk.
  set (obs := category_observations _ _).
  assert (Hin : In (per_order_columns (s, r)) obs).
  { subst obs. unfold category_observations. apply filter_In. split.
    - apply per_order_rows_In. exists s, r. auto.
    - apply eqb_refl. }
  assert (Hlen : List.length
                   (filter (fun row => eqb (timed_order_id s)
                                           (row_order_id row)) obs)
                 = 1%nat).
  { apply matches_present.
    - subst obs. unfold category_observations.
      apply filter_keeps_distinct_keys, per_order_rows_one_per_order.
    - apply in_map_iff. exists (per_order_columns (s, r)).
      split; [reflexivity|exact Hin]. }
  assert (Hin' : In (per_order_columns (s, r))
                    (filter (fun row => eqb (timed_order_id s)
                                            (row_order_id row)) obs)).
  { apply filter_In. split; [exact Hin|apply eqb_refl]. }
  destruct (filter _ obs) as [|x [|y l]]; try discriminate.
  destruct Hin' as [->|[]]. reflexivity.
Qed.

Lemma order_observed_nowhere_else (s : SaleTimed) (c : string) :
  In s sales -> c <> delivery_time s ->
  filter (fun row => eqb (timed_order_id s) (row_order_id row))
         (category_observations (per_order_rows sales reviews) c)
  = [].
Proof.
  intros Hs Hc.
  destruct (filter _ _) as [|row l] eqn:E; [reflexivity|].
  assert (Hrow : In row (row :: l)) by now left.
  rewrite <- E in Hrow. apply filter_In in Hrow. destruct Hrow as [Hrow Hid].
  unfold category_observations in Hrow. apply filter_In in Hrow.
  destruct Hrow as [Hrow Hcat].
  apply eqb_eq in Hid, Hcat. apply per_order_rows_In in Hrow.
  destruct Hrow as [s' [r' [Hs' [_ [_ ->]]]]].
  unfold per_order_columns, row_order_id, row_delivery_time in *.
  cbn [fst snd] in *.
  destruct (one_delivery s s' Hs Hs' Hid) as [_ Ht]. congruence.
Qed.

End DeliveryReview.

Lemma delivery_review_correlation_groups (sales : list SaleTimed)
  (reviews : list Review) (c : string) (avg : xnum) :
  In (c, avg) (calculate_delivery_review_correlation sales reviews)
  <-> category_observations (per_order_rows sales reviews) c <> [] /\
      avg = mean (map (fun r => Qc_of_Z (row_review_score r))
                      (category_observations (per_order_rows sales reviews) c)).
Proof.
  unfold calculate_delivery_review_correlation.
  rewrite groupby_mean_unfold, in_map_iff.
  set (rows := per_order_rows sales reviews).
  assert (Hne : forall k, In k (map row_delivery_time rows)
                          <-> category_observations rows k <> []).
  { intros k. unfold category_observations. rewrite in_map_iff. split.
    - intros [row [E Hrow]] Hnil.
      assert (Hin : In row (filter (fun r => eqb (row_delivery_time r) k)
                                   rows)).
      { apply filter_In. split; [assumption|now apply eqb_eq]. }
      rewrite Hnil in Hin. contradiction.
    - intros Hnil.
      destruct (filter _ rows) as [|row l] eqn:E; [congruence|].
      assert (Hin : In row (row :: l)) by now left.
      rewrite <- E in Hin. apply filter_In in Hin.
      exists row. split; [|tauto]. apply eqb_eq. tauto. }
  split.
  - intros [k [E Hk]]. inversion E; subst k avg.
    split; [|reflexivity]. now apply Hne, (group_keys_In String.leb).
  - intros [Hnil ->]. exists c. split; [reflexivity|].
    now apply group_keys_In, Hne.
Qed.

(** C3.  When every order has at most one review and the sales rows of
    an order share their delivery speed and delivery category, the rows
    that are averaged hold each order identifier at most once; a category
    is listed when it has such a row, with the mean of the review scores
    of its rows; a reviewed order has exactly one row among those of its
    category, carrying its review's score, and none among those of another
    category.  An order of three items delivered in 2 days with score 4
    and an order delivered in 1 day with score 5 give "1-3 days" the
    average 9/2. *)
Theorem delivery_review_correlation_once_per_order :
  (forall (sales : list SaleTimed) (reviews : list Review),
      NoDup (map r_order_id reviews) ->
      (forall s1 s2,
          In s1 sales -> In s2 sales ->
          timed_order_id s1 = timed_order_id s2 ->
          delivery_speed_days (speed s1) = delivery_speed_days (speed s2)
          /\ delivery_time s1 = delivery_time s2) ->
      let per_order := per_order_rows sales reviews in
      NoDup (map row_order_id per_order) /\
      (forall c avg,
          In (c, avg) (calculate_delivery_review_correlation sales reviews)
          <-> category_observations per_order c <> [] /\
              avg = mean (map (fun r => Qc_of_Z (row_review_score r))
                              (category_observations per_order c))) /\
      (forall s r,
          In s sales -> In r reviews ->
          r_order_id r = timed_order_id s ->
          filter (fun row => eqb (timed_order_id s) (row_order_id row))
                 (category_observations per_order (delivery_time s))
          = [(timed_order_id s, delivery_speed_days (speed s),
              delivery_time s, r_review_score r)]) /\
      (forall s c,
          In s sales -> c <> delivery_time s ->
          filter (fun row => eqb (timed_order_id s) (row_order_id row))
                 (category_observations per_order c)
          = [])) /\
  per_order_rows timed_sales timed_reviews
  = [("A", Some 2, "1-3 days", 4); ("B", Some 1, "1-3 days", 5);
     ("C", Some 10, "8+ days", 2)] /\
  calculate_delivery_review_correlation timed_sales timed_reviews
  = [("1-3 days", Fin (Q2Qc (9 # 2))); ("8+ days", Fin (Qc_of_Z 2))].
Proof.
  split; [|split; [reflexivity|qc_closed]].
  intros sales reviews Hrev Hdel per_order. subst per_order.
  split; [|split; [|split]].
  - now apply per_order_rows_one_per_order.
  - intros c avg. apply delivery_review_correlation_groups.
  - intros s r Hs Hr Hk.
    now apply (order_observed_once sales reviews Hrev Hdel s r).
  - intros s c Hs Hc.
    now apply (order_observed_nowhere_else sales reviews Hdel s c).
Qed.

(** The second premise can be checked by running over the table. *)
Lemma one_delivery_check (sales : list SaleTimed) :
  forallb
    (fun s1 =>
       forallb
         (fun s2 =>
            implb (eqb (timed_order_id s1) (timed_order_id s2))
                  (eqb (delivery_speed_days (speed s1))
                       (delivery_speed_days (speed s2))
                   && eqb (delivery_time s1) (delivery_time s2)))
         sales)
    sales = true ->
  forall s1 s2,
    In s1 sales -> In s2 sales ->
    timed_order_id s1 = timed_order_id s2 ->
    delivery_speed_days (speed s1) = delivery_speed_days (speed s2)
    /\ delivery_time s1 = delivery_time s2.
Proof.
  intros Hall s1 s2 H1 H2 E.
  rewrite forallb_forall in Hall. specialize (Hall s1 H1).
  rewrite forallb_forall in Hall. specialize (Hall s2 H2).
  apply eqb_eq in E. rewrite E in Hall. cbn [implb] in Hall.
  apply andb_true_iff in Hall. destruct Hall as [Hd Ht].
  apply eqb_eq in Hd, Ht. now split.
Qed.

Lemma delivery_review_correlation_once_per_order_witness :
  NoDup (map row_order_id (per_order_rows timed_sales timed_reviews)).
Proof.
  refine (proj1 (proj1 delivery_review_correlation_once_per_order
                   timed_sales timed_reviews _ _)).
  - repeat constructor; simpl; intuition discriminate.
  - apply one_delivery_check. vm_compute. reflexivity.
Defined.

(** * Further properties of the assembler *)

(** ** filter_delivered_orders and filter_by_period *)

(** X1.  [filter_delivered_orders] keeps exactly the rows whose status is
    "delivered", in their order: it distributes over the concatenation of
    tables, and filtering again changes nothing. *)
Theorem filter_delivered_orders_exact :
  forall sales_data more : list Sale,
    (forall s, In s (filter_delivered_orders sales_data)
               <-> In s sales_data /\ order_status s = "delivered") /\
    filter_delivered_orders (sales_data ++ more)
    = filter_delivered_orders sales_data ++ filter_delivered_orders more /\
    filter_delivered_orders (filter_delivered_orders sales_data)
    = filter_delivered_orders sales_data.
Proof.
  intros sales_data more. unfold filter_delivered_orders.
  split; [|split].
  - intros s. rewrite filter_In. now rewrite eqb_eq.
  - apply filter_app.
  - induction sales_data as [|s l IH]; [reflexivity|]. cbn [filter].
    destruct (eqb (order_status s) "delivered") eqn:E; [|exact IH].
    cbn [filter]. now rewrite E, IH.
Qed.


Lemma filter_filter_and {A} (f g : A -> bool) (l : list A) :
  filter f (filter g l) = filter (fun a => g a && f a) l.
Proof.
  induction l as [|a l IH]; [reflexivity|]. cbn [filter].
  destruct (g a); cbn [filter andb]; [|exact IH].
  destruct (f a); now rewrite IH.
Qed.



(** ** Totals *)

Lemma sum_nil : sum [] = 0%Qc.
Proof. reflexivity. Qed.

Lemma groupby_sum_length {R K} `{EqB K} (leb : K -> K -> bool) (key : R -> K)
  (col : R -> Qc) (rows : list R) :
  List.length (groupby_sum leb key col rows)
  = List.length (unique (map key rows)).
Proof.
  rewrite groupby_sum_unfold, length_map.
  apply Permutation_length, sort_Permutation.
Qed.

(** ** calculate_total_revenue and calculate_monthly_revenue *)

Lemma sum_nonneg (l : list Qc) :
  (forall x, In x l -> (0 <= x)%Qc) -> (0 <= sum l)%Qc.
Proof.
  induction l as [|x l IH]; intros Hall.
  - rewrite sum_nil. apply Qcle_refl.
  - rewrite sum_cons. apply (Qcle_trans _ (0 + sum l)).
    + rewrite Qcplus_0_l. apply IH. intros y Hy. apply Hall. now right.
    + apply Qcplus_le_compat; [|apply Qcle_refl]. apply Hall. now left.
Qed.

Lemma sum_ge_member (l : list Qc) (x : Qc) :
  (forall y, In y l -> (0 <= y)%Qc) -> In x l -> (x <= sum l)%Qc.
Proof.
  induction l as [|y l IH]; intros Hall Hin; [destruct Hin|].
  rewrite sum_cons. destruct Hin as [->|Hin].
  - apply (Qcle_trans _ (x + 0)).
    + rewrite Qcplus_0_r. apply Qcle_refl.
    + apply Qcplus_le_compat; [apply Qcle_refl|].
      apply sum_nonneg. intros z Hz. apply Hall. now right.
  - apply (Qcle_trans _ (0 + x)).
    + rewrite Qcplus_0_l. apply Qcle_refl.
    + apply Qcplus_le_compat; [apply Hall; now left|].
      apply IH; [|exact Hin]. intros z Hz. apply Hall. now right.
Qed.

(** X3.  The total revenue and the monthly revenue of no rows are zero
    and the empty series.  When no price is negative, the total revenue
    is at least the price of every row.  The monthly revenue lists the
    months of the rows in strictly ascending order, each once, with the
    sum of price over the rows of the month. *)
Theorem calculate_monthly_revenue_entries :
  calculate_total_revenue [] = 0%Qc /\
  calculate_monthly_revenue [] = [] /\
  (forall sales_data : list Sale,
      ((forall s, In s sales_data -> (0 <= price s)%Qc) ->
       forall s, In s sales_data ->
                 (price s <= calculate_total_revenue sales_data)%Qc) /\
      StronglySorted Z.lt (map fst (calculate_monthly_revenue sales_data)) /\
      (forall m v,
          In (m, v) (calculate_monthly_revenue sales_data)
          <-> In m (map month sales_data)
              /\ v = month_total sales_data m)).
Proof.
  split; [reflexivity|split; [reflexivity|]].
  intros sales_data. split; [|split].
  - intros Hall s Hs. unfold calculate_total_revenue.
    apply sum_ge_member.
    + intros y Hy. apply in_map_iff in Hy. destruct Hy as [r [<- Hr]].
      now apply Hall.
    + now apply in_map.
  - unfold calculate_monthly_revenue. rewrite groupby_sum_unfold, map_map.
    cbn [fst]. rewrite map_id. apply Sorted_leb_NoDup_lt.
    + apply sort_Sorted. intros a b. apply Zleb_total.
    + apply group_keys_NoDup.
  - intros m v. unfold calculate_monthly_revenue.
    rewrite groupby_sum_unfold, in_map_iff. unfold month_total. split.
    + intros [k [E Hk]]. inversion E; subst k v.
      split; [|reflexivity]. now apply group_keys_In in Hk.
    + intros [Hm ->]. exists m. split; [reflexivity|].
      now apply group_keys_In.
Qed.

Lemma calculate_monthly_revenue_entries_witness :
  (price (sale_of "B" 1 "p1" 150 5)
   <= calculate_total_revenue three_months)%Qc.
Proof.
  apply (proj1 (proj2 (proj2 calculate_monthly_revenue_entries)
                  three_months)).
  - intros s Hs. simpl in Hs.
    repeat (destruct Hs as [<-|Hs]; [apply (Qc_of_Z_le 0); lia|]).
    contradiction.
  - simpl. tauto.
Defined.

Example calculate_monthly_revenue_sample :
  calculate_total_revenue three_months = Qc_of_Z 340 /\
  calculate_monthly_revenue three_months
  = [(4, Qc_of_Z 100); (5, Qc_of_Z 150); (7, Qc_of_Z 90)].
Proof. split; qc_closed. Qed.

(** ** calculate_order_count and summarize_period_metrics *)

Lemma Qcinv_nonneg (n : Qc) : (0 <= n)%Qc -> (0 <= / n)%Qc.
Proof.
  unfold Qcle, Qcinv. cbn [this Q2Qc]. rewrite !Qred_correct.
  apply Qinv_le_0_compat.
Qed.

Lemma Qc_of_nat_nonneg (n : nat) : (0 <= Qc_of_nat n)%Qc.
Proof. apply (Qc_of_Z_le 0). lia. Qed.

Lemma unique_length_le {A} `{EqB A} (l : list A) :
  (List.length (unique l) <= List.length l)%nat.
Proof.
  induction l as [|a l IH]; simpl; [lia|].
  pose proof (filter_length_le (fun y => negb (eqb a y)) (unique l)). lia.
Qed.

(** The number of distinct values depends on the values only. *)
Lemma unique_length_ext {A} `{EqB A} (l1 l2 : list A) :
  (forall x, In x l1 <-> In x l2) ->
  List.length (unique l1) = List.length (unique l2).
Proof.
  intros Hsame. apply Permutation_length, NoDup_Permutation.
  - apply unique_NoDup.
  - apply unique_NoDup.
  - intros x. now rewrite !unique_In.
Qed.

Lemma filter_all {A} (f : A -> bool) (l : list A) :
  (forall x, In x l -> f x = true) -> filter f l = l.
Proof.
  induction l as [|a l IH]; intros Hall; [reflexivity|]. cbn [filter].
  rewrite (Hall a) by now left. f_equal. apply IH.
  intros x Hx. apply Hall. now right.
Qed.

Lemma unique_length_cons {A} `{EqB A} (a : A) (l : list A) :
  List.length (unique (a :: l))
  = if isin l a then List.length (unique l) else S (List.length (unique l)).
Proof.
  destruct (isin l a) eqn:E.
  - apply isin_In in E. apply unique_length_ext. intros x; simpl.
    split; [intros [<-|Hx]; assumption|now right].
  - assert (Hnotin : ~ In a l) by (rewrite <- isin_In; congruence).
    cbn [unique List.length]. f_equal. f_equal. apply filter_all.
    intros x Hx. apply (proj1 (unique_In l x)) in Hx.
    apply negb_true_iff, eqb_neq. intros ->. contradiction.
Qed.

(** X4.  The order count lies between zero and the number of rows and is
    zero only for the empty table; a further row of an order that is
    already there leaves it unchanged, a row of a new order raises it by
    one; and two tables with the same order identifiers have the same
    count. *)
Theorem calculate_order_count_distinct :
  forall sales_data : list Sale,
    0 <= calculate_order_count sales_data
      <= Z.of_nat (List.length sales_data) /\
    (calculate_order_count sales_data = 0 <-> sales_data = []) /\
    (forall s,
        calculate_order_count (s :: sales_data)
        = if isin (map order_id sales_data) (order_id s)
          then calculate_order_count sales_data
          else calculate_order_count sales_data + 1) /\
    (forall other : list Sale,
        (forall o, In o (map order_id sales_data)
                   <-> In o (map order_id other)) ->
        calculate_order_count sales_data = calculate_order_count other).
Proof.
  intros sales_data. unfold calculate_order_count.
  split; [|split; [|split]].
  - pose proof (unique_length_le (map order_id sales_data)) as Hle.
    rewrite length_map in Hle. lia.
  - split.
    + destruct sales_data as [|s l]; [reflexivity|]. simpl. lia.
    + intros ->. reflexivity.
  - intros s. cbn [map]. rewrite unique_length_cons.
    destruct (isin (map order_id sales_data) (order_id s)); lia.
  - intros other Hsame. f_equal. now apply unique_length_ext.
Qed.

Lemma calculate_order_count_distinct_witness :
  calculate_order_count two_orders
  = calculate_order_count [sale_of "B" 7 "p5" 1 3; sale_of "A" 9 "p6" 2 4].
Proof.
  apply (proj2 (proj2 (proj2 (calculate_order_count_distinct two_orders)))).
  intros o; simpl; intuition.
Defined.

(** X5.  In a period summary of an empty table the revenue and the
    order count are zero and the average order value is NaN.  Of a table
    with rows the order count is positive and at most the number of rows,
    and the average order value is a number, not negative when no price
    is.  So the average order value is NaN exactly when the order count
    is zero. *)
Theorem summarize_period_metrics_figures :
  forall (sales_data : list Sale) (y : Z) (m : option Z),
    let kpis := summarize_period_metrics sales_data y m in
    (sales_data = [] ->
     total_revenue kpis = 0%Qc /\ order_count kpis = 0 /\
     avg_order_value kpis = NaN) /\
    (sales_data <> [] ->
     0 < order_count kpis <= Z.of_nat (List.length sales_data) /\
     exists q, avg_order_value kpis = Fin q /\
               ((forall s, In s sales_data -> (0 <= price s)%Qc) ->
                (0 <= q)%Qc)) /\
    (avg_order_value kpis = NaN <-> order_count kpis = 0).
Proof.
  intros sales_data y m. cbv zeta.
  cbn [summarize_period_metrics total_revenue order_count avg_order_value].
  assert (Hcount : sales_data <> [] ->
                   0 < calculate_order_count sales_data
                   <= Z.of_nat (List.length sales_data)).
  { intros Hne. unfold calculate_order_count.
    pose proof (unique_length_le (map order_id sales_data)) as Hle.
    rewrite length_map in Hle.
    destruct sales_data as [|s l]; [congruence|]. simpl in *. lia. }
  assert (Havg : sales_data <> [] ->
                 exists q, calculate_average_order_value sales_data = Fin q /\
                           ((forall s, In s sales_data -> (0 <= price s)%Qc) ->
                            (0 <= q)%Qc)).
  { intros Hne. unfold calculate_average_order_value, mean.
    pose proof (groupby_sum_length String.leb order_id price sales_data) as Hl.
    pose proof (groupby_sum_unfold String.leb order_id price sales_data) as Hu.
    destruct (groupby_sum String.leb order_id price sales_data)
      as [|g gs] eqn:E.
    - exfalso. apply Hcount in Hne. unfold calculate_order_count in Hne.
      rewrite <- Hl in Hne. simpl in Hne. lia.
    - cbn [map]. eexists. split; [reflexivity|]. intros Hall.
      unfold Qcdiv.
      rewrite <- (Qcmult_0_l (/ Qc_of_nat (List.length (snd g :: map snd gs)))).
      apply Qcmult_le_compat_r.
      + apply sum_nonneg. intros x Hx. change (snd g :: map snd gs)
          with (map snd (g :: gs)) in Hx. rewrite Hu in Hx.
        rewrite map_map in Hx. cbn [snd] in Hx.
        apply in_map_iff in Hx. destruct Hx as [k [<- _]].
        apply sum_nonneg. intros z Hz. apply in_map_iff in Hz.
        destruct Hz as [r [<- Hr]]. apply filter_In in Hr. now apply Hall.
      + apply Qcinv_nonneg, Qc_of_nat_nonneg. }
  split; [|split].
  - intros ->. repeat split.
  - intros Hne. split; [now apply Hcount|now apply Havg].
  - destruct sales_data as [|s l].
    + split; reflexivity.
    + assert (Hne : s :: l <> []) by discriminate.
      destruct (Havg Hne) as [q [Hq _]]. pose proof (Hcount Hne).
      rewrite Hq. split; [discriminate|lia].
Qed.

Lemma summarize_period_metrics_figures_witness :
  0 < order_count (summarize_period_metrics two_orders 1970 None)
    <= Z.of_nat (List.length two_orders) /\
  exists q,
    avg_order_value (summarize_period_metrics two_orders 1970 None) = Fin q /\
    ((forall s, In s two_orders -> (0 <= price s)%Qc) -> (0 <= q)%Qc).
Proof.
  apply (proj1 (proj2 (summarize_period_metrics_figures
                         two_orders 1970 None))).
  discriminate.
Defined.

(** ** Joins on a key that is unique on the right *)

Section MergeUnique.
Context {L R K : Type} `{EqB K} (keyl : L -> K) (keyr : R -> K).

Lemma merge_left_absent (before after : list L) (l : L) (right : list R) :
  ~ In (keyl l) (map keyr right) ->
  merge keyl keyr (before ++ l :: after) right
  = merge keyl keyr (before ++ after) right.
Proof.
  intros Hl. rewrite !merge_app. f_equal.
  unfold merge at 1. cbn [flat_map].
  now rewrite (matches_absent keyr right (keyl l) Hl).
Qed.

(** When every left row finds its key on the right, and the right keys
    are unique, the join keeps the left rows as they are. *)
Lemma merge_fst_total (left : list L) (right : list R) :
  NoDup (map keyr right) ->
  (forall l, In l left -> In (keyl l) (map keyr right)) ->
  map fst (merge keyl keyr left right) = left.
Proof.
  intros Hnd Hall. unfold merge.
  induction left as [|l left IH]; [reflexivity|].
  cbn [flat_map]. rewrite map_app, IH by (intros l' Hl'; apply Hall; now right).
  pose proof (matches_present keyr right (keyl l) Hnd
                (Hall l (or_introl eq_refl))) as Hone.
  destruct (filter _ right) as [|r [|r' rest]]; try discriminate.
  reflexivity.
Qed.

End MergeUnique.

(** ** calculate_state_revenue *)

(** X6.  The state revenues are listed from the highest to the lowest,
    one entry per state that a joined row has; the revenue of a state is
    the sum of price over the rows of the join of sales rows, orders and
    customers that carry the state; and a sales row whose order
    identifier is not in the orders table can be left out without
    changing the result. *)
Theorem calculate_state_revenue_sorted_inner_join :
  forall (sales_data : list Sale) (orders : list Order)
         (customers : list Customer),
    StronglySorted (fun a b => (snd b <= snd a)%Qc)
                   (calculate_state_revenue sales_data orders customers) /\
    NoDup (map fst (calculate_state_revenue sales_data orders customers)) /\
    (forall st v,
        In (st, v) (calculate_state_revenue sales_data orders customers)
        <-> (exists s o c, In s sales_data /\ In o orders /\ In c customers /\
                           order_id s = o_order_id o /\
                           o_customer_id o = c_customer_id c /\
                           c_customer_state c = st) /\
            v = state_total sales_data orders customers st) /\
    (forall before after s,
        sales_data = before ++ s :: after ->
        ~ In (order_id s) (map o_order_id orders) ->
        calculate_state_revenue sales_data orders customers
        = calculate_state_revenue (before ++ after) orders customers).
Proof.
  intros sales_data orders customers.
  unfold calculate_state_revenue, state_total.
  set (with_customer := merge order_id o_order_id sales_data orders).
  set (with_state := merge (fun m => o_customer_id (snd m)) c_customer_id
                           with_customer customers).
  set (grouped := groupby_sum String.leb _ _ with_state).
  assert (Hperm : Permutation (sort_values_desc grouped) grouped)
    by apply sort_Permutation.
  split; [|split; [|split]].
  - apply sort_values_desc_sorted.
  - eapply Permutation_NoDup.
    + apply Permutation_sym, Permutation_map, Hperm.
    + subst grouped. rewrite groupby_sum_unfold, map_map. cbn [fst].
      rewrite map_id. apply group_keys_NoDup.
  - intros st v. split.
    + intros Hin. apply (Permutation_in _ Hperm) in Hin.
      subst grouped. rewrite groupby_sum_unfold in Hin.
      apply in_map_iff in Hin. destruct Hin as [k [E Hk]].
      inversion E; subst k v. split; [|reflexivity].
      apply group_keys_In, in_map_iff in Hk.
      destruct Hk as [[[s o] c] [Hst Hin]]. cbn [fst snd] in Hst.
      subst with_state. apply merge_In in Hin. cbn [fst snd] in Hin.
      destruct Hin as [Hso [Hc Hkey]].
      subst with_customer. apply merge_In in Hso.
      exists s, o, c. tauto.
    + intros [[s [o [c [Hs [Ho [Hc [Hso [Hoc Hst]]]]]]]] ->].
      apply (Permutation_in _ (Permutation_sym Hperm)).
      subst grouped. rewrite groupby_sum_unfold.
      apply in_map_iff. exists st. split; [reflexivity|].
      apply group_keys_In, in_map_iff. exists (s, o, c).
      split; [exact Hst|]. subst with_state. apply merge_In.
      split; [|split; [exact Hc|exact Hoc]].
      subst with_customer. apply merge_In. tauto.
  - intros before after s -> Hs. subst grouped with_state with_customer.
    now rewrite (merge_left_absent order_id o_order_id
                   before after s orders Hs).
Qed.

Lemma calculate_state_revenue_sorted_inner_join_witness :
  calculate_state_revenue ([] ++ sale_of "Q" 1 "p1" 10 1 :: two_orders)
                          state_orders state_customers
  = calculate_state_revenue ([] ++ two_orders) state_orders state_customers.
Proof.
  apply (proj2 (proj2 (proj2
           (calculate_state_revenue_sorted_inner_join
              _ state_orders state_customers)))
           [] two_orders (sale_of "Q" 1 "p1" 10 1) eq_refl).
  simpl. intuition discriminate.
Defined.

(** ** calculate_average_review_score *)

Lemma Qc_of_nat_S (n : nat) : Qc_of_nat (S n) = (1 + Qc_of_nat n)%Qc.
Proof.
  change (S n) with (1 + n)%nat. rewrite Qc_of_nat_plus. f_equal.
Qed.

Lemma Qc_of_nat_pos (n : nat) : (0 < n)%nat -> (0 < Qc_of_nat n)%Qc.
Proof. intros Hn. apply (Qc_of_Z_lt 0). lia. Qed.

(** The sum of values within bounds lies within the bounds times their
    number. *)
Lemma sum_bounds (l : list Qc) (a b : Qc) :
  (forall x, In x l -> a <= x /\ x <= b)%Qc ->
  (Qc_of_nat (List.length l) * a <= sum l
   /\ sum l <= Qc_of_nat (List.length l) * b)%Qc.
Proof.
  induction l as [|x l IH]; intros Hall.
  - change (Qc_of_nat (List.length [])) with 0%Qc. rewrite sum_nil.
    rewrite !Qcmult_0_l. split; apply Qcle_refl.
  - cbn [List.length]. rewrite Qc_of_nat_S, sum_cons.
    destruct (Hall x (or_introl eq_refl)) as [Hax Hxb].
    destruct IH as [Hlo Hhi]; [intros y Hy; apply Hall; now right|].
    rewrite !Qcmult_plus_distr_l, !Qcmult_1_l.
    split; now apply Qcplus_le_compat.
Qed.

(** The mean of values within bounds lies within the bounds. *)
Lemma mean_bounds (l : list Qc) (a b : Qc) :
  l <> [] ->
  (forall x, In x l -> a <= x /\ x <= b)%Qc ->
  exists q, mean l = Fin q /\ (a <= q /\ q <= b)%Qc.
Proof.
  intros Hne Hall. destruct l as [|x l]; [congruence|].
  unfold mean. eexists. split; [reflexivity|].
  set (n := Qc_of_nat (List.length (x :: l))).
  assert (Hpos : (0 < n)%Qc) by (apply Qc_of_nat_pos; simpl; lia).
  assert (Hn0 : n <> 0%Qc) by (intros E; rewrite E in Hpos;
                               exact (Qclt_not_eq _ _ Hpos eq_refl)).
  destruct (sum_bounds (x :: l) a b Hall) as [Hlo Hhi]. fold n in Hlo, Hhi.
  assert (Hq : (sum (x :: l) / n * n = sum (x :: l))%Qc) by now field.
  split; apply (Qcmult_lt_0_le_reg_r _ _ n Hpos); rewrite Hq.
  - now rewrite Qcmult_comm.
  - now rewrite (Qcmult_comm b).
Qed.

Lemma mean_map_nonempty {A} (f : A -> Qc) (l : list A) :
  l <> [] ->
  mean (map f l) = Fin (sum (map f l) / Qc_of_nat (List.length l))%Qc.
Proof.
  destruct l as [|x l]; [congruence|]. intros _.
  unfold mean. cbn [map]. do 3 f_equal. cbn [List.length].
  now rewrite length_map.
Qed.

(** X7.  The average review score is the mean of the scores of the
    reviews whose order has a sales row.  Without such a review it is
    NaN; with one, and with every review score between 1 and 5, it is a
    number between 1 and 5. *)
Theorem calculate_average_review_score_mean :
  forall (sales_data : list Sale) (reviews : list Review),
    calculate_average_review_score sales_data reviews
    = mean (map Qc_of_Z (relevant_scores sales_data reviews)) /\
    (relevant_scores sales_data reviews = [] ->
     calculate_average_review_score sales_data reviews = NaN) /\
    (relevant_scores sales_data reviews <> [] ->
     (forall r, In r reviews -> 1 <= r_review_score r <= 5) ->
     exists q, calculate_average_review_score sales_data reviews = Fin q
               /\ (Qc_of_Z 1 <= q /\ q <= Qc_of_Z 5)%Qc).
Proof.
  intros sales_data reviews.
  assert (Hmean : calculate_average_review_score sales_data reviews
                  = mean (map Qc_of_Z (relevant_scores sales_data reviews))).
  { unfold calculate_average_review_score, relevant_scores.
    rewrite map_map. do 2 f_equal. apply filter_ext. intros r.
    apply isin_unique. }
  split; [exact Hmean|]. rewrite Hmean.
  set (scores := relevant_scores sales_data reviews).
  split.
  - intros ->. reflexivity.
  - intros Hne Hrange. apply mean_bounds.
    + destruct scores; [congruence|discriminate].
    + intros x Hx. apply in_map_iff in Hx. destruct Hx as [z [<- Hz]].
      subst scores. unfold relevant_scores in Hz. apply in_map_iff in Hz.
      destruct Hz as [r [<- Hr]]. apply filter_In in Hr.
      destruct (Hrange r (proj1 Hr)).
      split; apply Qc_of_Z_le; assumption.
Qed.

Lemma calculate_average_review_score_mean_witness :
  exists q, calculate_average_review_score reviewed_sales four_reviews = Fin q
            /\ (Qc_of_Z 1 <= q /\ q <= Qc_of_Z 5)%Qc.
Proof.
  apply (proj2 (proj2
           (calculate_average_review_score_mean reviewed_sales four_reviews))).
  - discriminate.
  - intros r Hr. simpl in Hr.
    repeat (destruct Hr as [<-|Hr]; [simpl; lia|]). contradiction.
Defined.

(** X8.  The review metrics look at the sales rows only for the set of
    their order identifiers: two sales tables with the same order
    identifiers give the same score distribution and the same average, so
    an order with several items weighs as much as an order with one; and
    a review of an order without sales rows can be left out. *)
Theorem review_metrics_depend_on_order_ids :
  forall (sales_data : list Sale) (reviews : list Review),
    (forall other : list Sale,
        (forall o, In o (map order_id sales_data)
                   <-> In o (map order_id other)) ->
        calculate_review_score_distribution sales_data reviews
        = calculate_review_score_distribution other reviews /\
        calculate_average_review_score sales_data reviews
        = calculate_average_review_score other reviews) /\
    (forall before after r,
        reviews = before ++ r :: after ->
        ~ In (r_order_id r) (map order_id sales_data) ->
        calculate_review_score_distribution sales_data reviews
        = calculate_review_score_distribution sales_data (before ++ after) /\
        calculate_average_review_score sales_data reviews
        = calculate_average_review_score sales_data (before ++ after)).
Proof.
  intros sales_data reviews. split.
  - intros other Hsame.
    assert (Hf : filter (fun r => isin (unique (map order_id sales_data))
                                       (r_order_id r)) reviews
                 = filter (fun r => isin (unique (map order_id other))
                                         (r_order_id r)) reviews).
    { apply filter_ext. intros r. apply eq_true_iff_eq.
      now rewrite !isin_In, !unique_In. }
    unfold calculate_review_score_distribution,
      calculate_average_review_score.
    now rewrite Hf.
  - intros before after r -> Hr.
    assert (Hf : filter (fun r => isin (unique (map order_id sales_data))
                                       (r_order_id r)) (before ++ r :: after)
                 = filter (fun r => isin (unique (map order_id sales_data))
                                         (r_order_id r)) (before ++ after)).
    { rewrite !filter_app. cbn [filter].
      destruct (isin _ (r_order_id r)) eqn:E; [|reflexivity].
      apply isin_In in E. apply (proj1 (unique_In _ _)) in E.
      contradiction. }
    unfold calculate_review_score_distribution,
      calculate_average_review_score.
    now rewrite Hf.
Qed.

Lemma review_metrics_depend_on_order_ids_witness :
  calculate_review_score_distribution reviewed_sales four_reviews
  = calculate_review_score_distribution
      [sale_of "D" 1 "p1" 1 1; sale_of "C" 1 "p1" 1 1; sale_of "B" 1 "p1" 1 1;
       sale_of "A" 1 "p1" 1 1] four_reviews.
Proof.
  apply (proj1 (review_metrics_depend_on_order_ids
                  reviewed_sales four_reviews)).
  intros o; simpl; intuition.
Defined.

(** ** calculate_order_status_distribution *)

Lemma StronglySorted_map {A B} (P : A -> A -> Prop) (Q : B -> B -> Prop)
  (f : A -> B) (l : list A) :
  (forall a b, P a b -> Q (f a) (f b)) ->
  StronglySorted P l -> StronglySorted Q (map f l).
Proof.
  intros HPQ. induction 1 as [|a l _ IH Hall]; simpl; constructor.
  - exact IH.
  - rewrite Forall_forall in *. intros y Hy. apply in_map_iff in Hy.
    destruct Hy as [x [<- Hx]]. apply HPQ, Hall, Hx.
Qed.

Section ValueCounts.
Context {A : Type} `{EqB A} (vals : list A).

Lemma value_counts_normalize_unfold :
  value_counts_normalize vals
  = map (fun c => (fst c, (Qc_of_nat (snd c)
                           / Qc_of_nat (List.length vals))%Qc))
        (sort (fun a b => Nat.leb (snd b) (snd a))
              (map (fun v => (v, count v vals)) (unique vals))).
Proof.
  unfold value_counts_normalize.
  set (counts := map (fun v => (v, count v vals)) (unique vals)).
  set (sorted := sort _ counts).
  assert (Htotal : list_sum (map snd sorted) = List.length vals).
  { assert (Hs : Permutation sorted counts) by apply sort_Permutation.
    rewrite (Permutation_list_sum (Permutation_map snd Hs)).
    subst counts. rewrite map_map. cbn [snd].
    apply counts_total; [apply unique_NoDup|].
    intros x. apply unique_In. }
  now rewrite Htotal.
Qed.

Lemma value_counts_normalize_Permutation :
  Permutation (value_counts_normalize vals)
              (map (fun v => (v, (Qc_of_nat (count v vals)
                                  / Qc_of_nat (List.length vals))%Qc))
                   (unique vals)).
Proof.
  rewrite value_counts_normalize_unfold, sort_Permutation, map_map.
  reflexivity.
Qed.

Lemma value_counts_normalize_sorted :
  StronglySorted (fun a b => (snd b <= snd a)%Qc) (value_counts_normalize vals).
Proof.
  rewrite value_counts_normalize_unfold.
  apply StronglySorted_map
    with (P := fun a b : A * nat => Nat.leb (snd b) (snd a) = true).
  - intros a b Hab. apply Nat.leb_le in Hab. cbn [snd].
    unfold Qcdiv. apply Qcmult_le_compat_r.
    + apply Qc_of_Z_le. lia.
    + apply Qcinv_nonneg, Qc_of_nat_nonneg.
  - apply Sorted_StronglySorted.
    + intros a b c Hab Hbc. apply Nat.leb_le in Hab, Hbc.
      apply Nat.leb_le. lia.
    + apply sort_Sorted. intros a b.
      destruct (Nat.leb_spec (snd b) (snd a)); [now left|right].
      apply Nat.leb_le. lia.
Qed.

End ValueCounts.

(** X9.  The order status distribution of a year lists each status that
    an order placed in the year has, once, with the share of the year's
    orders that have it, the largest share first; the counts of the
    listed statuses add up to the number of the year's orders, and a year
    without orders gives the empty distribution. *)
Theorem calculate_order_status_distribution_frequencies :
  forall (orders : list Order) (y : Z),
    let statuses :=
      map o_order_status
          (filter (fun o => eqb (dt_year (o_order_purchase_timestamp o)) y)
                  orders) in
    let shares := calculate_order_status_distribution orders y in
    StronglySorted (fun a b => (snd b <= snd a)%Qc) shares /\
    NoDup (map fst shares) /\
    (forall st p,
        In (st, p) shares
        <-> In st statuses /\
            p = (Qc_of_nat (count st statuses)
                 / Qc_of_nat (List.length statuses))%Qc) /\
    list_sum (map (fun st => count st statuses) (map fst shares))
    = List.length statuses /\
    (statuses = [] -> shares = []).
Proof.
  intros orders y. cbv zeta. unfold calculate_order_status_distribution.
  set (statuses := map o_order_status _).
  pose proof (value_counts_normalize_Permutation statuses) as Hperm.
  set (shares := value_counts_normalize statuses) in *.
  assert (Hkeys : Permutation (map fst shares) (unique statuses)).
  { rewrite (Permutation_map fst Hperm), map_map. cbn [fst].
    now rewrite map_id. }
  split; [|split; [|split; [|split]]].
  - apply value_counts_normalize_sorted.
  - eapply Permutation_NoDup.
    + apply Permutation_sym, Hkeys.
    + apply unique_NoDup.
  - intros st p. split.
    + intros Hin. apply (Permutation_in _ Hperm), in_map_iff in Hin.
      destruct Hin as [v [E Hv]]. inversion E; subst.
      split; [now apply (proj1 (unique_In statuses st))|reflexivity].
    + intros [Hs ->]. apply (Permutation_in _ (Permutation_sym Hperm)).
      apply in_map_iff. exists st. split; [reflexivity|now apply unique_In].
  - rewrite (Permutation_list_sum (Permutation_map _ Hkeys)).
    apply counts_total; [apply unique_NoDup|].
    intros x. apply unique_In.
  - intros Hnil. subst shares. now rewrite Hnil.
Qed.

Lemma calculate_order_status_distribution_frequencies_witness :
  calculate_order_status_distribution state_orders 1999 = [].
Proof.
  apply (proj2 (proj2 (proj2 (proj2
           (calculate_order_status_distribution_frequencies
              state_orders 1999))))).
  reflexivity.
Defined.

(** ** categorize_delivery_speed, between and beyond the buckets *)

Lemma Qc_leb_of_Z (a b : Z) : Qc_leb (Qc_of_Z a) (Qc_of_Z b) = (a <=? b).
Proof.
  destruct (Z.leb_spec a b) as [Hle|Hgt].
  - now apply Qc_leb_le, Qc_of_Z_le.
  - now apply Qc_leb_gt, Qc_of_Z_lt.
Qed.

Lemma categorize_delivery_speed_int (d : Z) :
  categorize_delivery_speed (xint d)
  = if d <=? 3 then "1-3 days" else if d <=? 7 then "4-7 days" else "8+ days".
Proof.
  unfold categorize_delivery_speed, xint, xleb. now rewrite !Qc_leb_of_Z.
Qed.

Lemma categorize_delivery_speed_label (days : xnum) :
  In (categorize_delivery_speed days) DELIVERY_ORDER.
Proof.
  unfold categorize_delivery_speed, DELIVERY_ORDER.
  destruct (xleb days (xint 3)); [simpl; tauto|].
  destruct (xleb days (xint 7)); simpl; tauto.
Qed.

(** X10.  The category is always one of the three labels.  On a number
    of days [q], whole or not, it is "1-3 days" exactly when [q <= 3]
    (zero and negative numbers included), "4-7 days" exactly when
    [3 < q <= 7] and "8+ days" exactly when [7 < q]; plus infinity is in
    "8+ days" and minus infinity in "1-3 days". *)
Theorem categorize_delivery_speed_exact :
  (forall days : xnum, In (categorize_delivery_speed days) DELIVERY_ORDER) /\
  (forall q : Qc,
      (categorize_delivery_speed (Fin q) = "1-3 days"
       <-> (q <= Qc_of_Z 3)%Qc) /\
      (categorize_delivery_speed (Fin q) = "4-7 days"
       <-> (Qc_of_Z 3 < q)%Qc /\ (q <= Qc_of_Z 7)%Qc) /\
      (categorize_delivery_speed (Fin q) = "8+ days" <-> (Qc_of_Z 7 < q)%Qc)) /\
  categorize_delivery_speed PInf = "8+ days" /\
  categorize_delivery_speed NInf = "1-3 days".
Proof.
  split; [|split; [|split; reflexivity]].
  - apply categorize_delivery_speed_label.
  - intros q. unfold categorize_delivery_speed, xint, xleb.
    assert (H37 : (Qc_of_Z 3 <= Qc_of_Z 7)%Qc) by (apply Qc_of_Z_le; lia).
    destruct (Qc_leb q (Qc_of_Z 3)) eqn:E3.
    + apply Qc_leb_le in E3.
      split; [|split]; (split; [try discriminate|]).
      * intros _. exact E3.
      * reflexivity.
      * intros [H _]. exfalso. exact (Qclt_not_le _ _ H E3).
      * intros H. exfalso. apply (Qclt_not_le _ _ H).
        eapply Qcle_trans; eassumption.
    + apply Qc_leb_gt in E3. destruct (Qc_leb q (Qc_of_Z 7)) eqn:E7.
      * apply Qc_leb_le in E7.
        split; [|split]; (split; [try discriminate|]).
        -- intros H. exfalso. exact (Qclt_not_le _ _ E3 H).
        -- intros _. now split.
        -- reflexivity.
        -- intros H. exfalso. exact (Qclt_not_le _ _ H E7).
      * apply Qc_leb_gt in E7.
        split; [|split]; (split; [try discriminate|]).
        -- intros H. exfalso. exact (Qclt_not_le _ _ E3 H).
        -- intros [_ H]. exfalso. exact (Qclt_not_le _ _ E7 H).
        -- intros _. exact E7.
        -- reflexivity.
Qed.

(** ** add_delivery_speed in whole days *)

(** X11.  For a delivered row the delivery speed is the number of whole
    days that fit between purchase and delivery: [d] days have passed and
    [d + 1] have not.  It is negative exactly when the delivery timestamp
    lies before the purchase timestamp. *)
Theorem add_delivery_speed_whole_days :
  forall (sales_data : list Sale) (r : SaleSpeed) (delivered : Timestamp),
    In r (add_delivery_speed sales_data) ->
    order_delivered_customer_date (sale r) = Some delivered ->
    exists d,
      delivery_speed_days r = Some d /\
      d * ns_per_day <= delivered - order_purchase_timestamp (sale r)
      /\ delivered - order_purchase_timestamp (sale r) < (d + 1) * ns_per_day
      /\ (d < 0 <-> delivered < order_purchase_timestamp (sale r)).
Proof.
  intros sales_data r delivered Hr Hd.
  unfold add_delivery_speed in Hr. apply in_map_iff in Hr.
  destruct Hr as [s [<- _]]. cbn [sale delivery_speed_days] in *.
  rewrite Hd. eexists. split; [reflexivity|].
  unfold timedelta_days.
  set (diff := delivered - order_purchase_timestamp s).
  change ns_per_day with 86400000000000.
  pose proof (Z.div_mod diff 86400000000000 ltac:(lia)) as Hdm.
  pose proof (Z.mod_pos_bound diff 86400000000000 ltac:(lia)) as Hmod.
  subst diff. lia.
Qed.

Lemma add_delivery_speed_whole_days_witness :
  exists d,
    delivery_speed_days delivered_speed = Some d /\
    d * ns_per_day
    <= 53 * hour - order_purchase_timestamp (sale delivered_speed)
    /\ 53 * hour - order_purchase_timestamp (sale delivered_speed)
       < (d + 1) * ns_per_day
    /\ (d < 0 <-> 53 * hour < order_purchase_timestamp (sale delivered_speed)).
Proof.
  apply (add_delivery_speed_whole_days [delivered_sale] delivered_speed
                                       (53 * hour)).
  - left. reflexivity.
  - reflexivity.
Defined.

(** X12.  The category that the dashboard's table preparation gives a
    row, in terms of its timestamps: a row without delivery timestamp is
    in "8+ days"; a delivered row is in "1-3 days" exactly when less than
    4 days lie between purchase and delivery, in "4-7 days" exactly when
    at least 4 and less than 8 days do, and in "8+ days" exactly when at
    least 8 days do. *)
Theorem delivery_time_by_timestamps :
  forall (sales_data : list Sale) (t : SaleTimed),
    In t (add_delivery_time (add_delivery_speed sales_data)) ->
    match order_delivered_customer_date (sale (speed t)) with
    | None => delivery_time t = "8+ days"
    | Some delivered =>
        let elapsed :=
          delivered - order_purchase_timestamp (sale (speed t)) in
        (delivery_time t = "1-3 days" <-> elapsed < 4 * ns_per_day) /\
        (delivery_time t = "4-7 days"
         <-> 4 * ns_per_day <= elapsed < 8 * ns_per_day) /\
        (delivery_time t = "8+ days" <-> 8 * ns_per_day <= elapsed)
    end.
Proof.
  intros sales_data t Ht.
  unfold add_delivery_time in Ht. apply in_map_iff in Ht.
  destruct Ht as [r [<- Hr]]. cbn [speed delivery_time].
  unfold add_delivery_speed in Hr. apply in_map_iff in Hr.
  destruct Hr as [s [<- _]]. cbn [sale delivery_speed_days].
  destruct (order_delivered_customer_date s) as [delivered|];
    [|reflexivity].
  cbn [days_value]. rewrite categorize_delivery_speed_int.
  unfold timedelta_days. cbv zeta.
  set (diff := delivered - order_purchase_timestamp s).
  change ns_per_day with 86400000000000.
  pose proof (Z.div_mod diff 86400000000000 ltac:(lia)) as Hdm.
  pose proof (Z.mod_pos_bound diff 86400000000000 ltac:(lia)) as Hmod.
  destruct (Z.leb_spec (diff / 86400000000000) 3);
    [|destruct (Z.leb_spec (diff / 86400000000000) 7)];
    repeat split; intros; try discriminate; try lia.
Qed.

Lemma delivery_time_by_timestamps_witness :
  match order_delivered_customer_date (sale (speed delivered_timed)) with
  | None => delivery_time delivered_timed = "8+ days"
  | Some delivered =>
      let elapsed :=
        delivered - order_purchase_timestamp (sale (speed delivered_timed)) in
      (delivery_time delivered_timed = "1-3 days"
       <-> elapsed < 4 * ns_per_day) /\
      (delivery_time delivered_timed = "4-7 days"
       <-> 4 * ns_per_day <= elapsed < 8 * ns_per_day) /\
      (delivery_time delivered_timed = "8+ days" <-> 8 * ns_per_day <= elapsed)
  end.
Proof.
  apply (delivery_time_by_timestamps [delivered_sale] delivered_timed).
  left. vm_compute. reflexivity.
Defined.

(** ** build_sales_data: what a sales row carries *)

Lemma build_sales_data_calendar (orders : list Order)
  (order_items : list OrderItem) (s : Sale) :
  In s (build_sales_data orders order_items) ->
  month s = dt_month (order_purchase_timestamp s) /\
  year s = dt_year (order_purchase_timestamp s).
Proof.
  unfold build_sales_data. intros Hs. apply in_map_iff in Hs.
  destruct Hs as [io [<- _]]. split; reflexivity.
Qed.

(** X13.  Every sales row has the month and the year of its purchase
    timestamp.  When order identifiers are unique in the orders table and
    every item's order is there, the sales rows are the order items in
    their order, each with its order identifier, item number, product and
    price, so that the total revenue is the sum of the item prices. *)
Theorem build_sales_data_keeps_items :
  forall (orders : list Order) (order_items : list OrderItem),
    (forall s, In s (build_sales_data orders order_items) ->
               month s = dt_month (order_purchase_timestamp s) /\
               year s = dt_year (order_purchase_timestamp s)) /\
    (NoDup (map o_order_id orders) ->
     (forall i, In i order_items ->
                In (i_order_id i) (map o_order_id orders)) ->
     map (fun s => (order_id s, order_item_id s, product_id s, price s))
         (build_sales_data orders order_items)
     = map (fun i => (i_order_id i, i_order_item_id i, i_product_id i,
                      i_price i)) order_items /\
     calculate_total_revenue (build_sales_data orders order_items)
     = sum (map i_price order_items)).
Proof.
  intros orders order_items. split.
  - apply build_sales_data_calendar.
  - unfold build_sales_data. intros Hnd Hall.
    pose proof (merge_fst_total i_order_id o_order_id order_items orders
                  Hnd Hall) as Hfst.
    split.
    + rewrite map_map. cbn [sales_row order_id order_item_id product_id price].
      rewrite <- Hfst at 2. now rewrite map_map.
    + unfold calculate_total_revenue. rewrite map_map.
      cbn [sales_row price]. rewrite <- Hfst at 2. now rewrite map_map.
Qed.

Lemma build_sales_data_keeps_items_witness :
  calculate_total_revenue (build_sales_data orders_once one_item)
  = sum (map i_price one_item).
Proof.
  apply (proj2 (build_sales_data_keeps_items orders_once one_item)).
  - repeat constructor. simpl. tauto.
  - intros i [<-|[]]. simpl. now left.
Defined.

(** ** Months *)

Lemma dt_month_range (t : Timestamp) : 1 <= dt_month t <= 12.
Proof.
  unfold dt_month, civil_from_days. cbv zeta. cbn [fst snd].
  set (z := t / ns_per_day + 719468).
  set (doe := z - z / 146097 * 146097).
  assert (Hdoe : 0 <= doe < 146097).
  { subst doe. pose proof (Z.div_mod z 146097 ltac:(lia)).
    pose proof (Z.mod_pos_bound z 146097 ltac:(lia)). lia. }
  clearbody doe. clear z.
  set (yoe := (doe - doe / 1460 + doe / 36524 - doe / 146096) / 365).
  set (doy := doe - (365 * yoe + yoe / 4 - yoe / 100)).
  assert (Hdoy : 0 <= doy <= 365).
  { subst doy yoe. Z.div_mod_to_equations. lia. }
  clearbody doy. clear yoe Hdoe doe.
  set (mp := (5 * doy + 2) / 153).
  assert (Hmp : 0 <= mp <= 11).
  { subst mp. Z.div_mod_to_equations. lia. }
  destruct (Z.ltb_spec mp 10); lia.
Qed.

(** X14.  The month of a sales row made by [build_sales_data] is a month
    number from 1 to 12, so the monthly revenue of such rows has at most
    twelve entries, for months from 1 to 12. *)
Theorem build_sales_data_months :
  forall (orders : list Order) (order_items : list OrderItem),
    (forall s, In s (build_sales_data orders order_items) ->
               1 <= month s <= 12) /\
    (forall m v,
        In (m, v) (calculate_monthly_revenue
                     (build_sales_data orders order_items)) ->
        1 <= m <= 12) /\
    (List.length (calculate_monthly_revenue
                    (build_sales_data orders order_items)) <= 12)%nat.
Proof.
  intros orders order_items.
  assert (Hrow : forall s, In s (build_sales_data orders order_items) ->
                           1 <= month s <= 12).
  { intros s Hs.
    destruct (build_sales_data_calendar orders order_items s Hs) as [-> _].
    apply dt_month_range. }
  assert (Hkey : forall m,
             In m (map fst (calculate_monthly_revenue
                              (build_sales_data orders order_items))) ->
             1 <= m <= 12).
  { intros m Hm. unfold calculate_monthly_revenue in Hm.
    rewrite groupby_sum_unfold, map_map in Hm. cbn [fst] in Hm.
    rewrite map_id in Hm. apply group_keys_In, in_map_iff in Hm.
    destruct Hm as [s [<- Hs]]. now apply Hrow. }
  split; [exact Hrow|split].
  - intros m v Hin. apply Hkey. change m with (fst (m, v)). now apply in_map.
  - rewrite <- (length_map fst).
    change 12%nat with (List.length [1; 2; 3; 4; 5; 6; 7; 8; 9; 10; 11; 12]).
    apply NoDup_incl_length.
    + unfold calculate_monthly_revenue.
      rewrite groupby_sum_unfold, map_map. cbn [fst]. rewrite map_id.
      apply group_keys_NoDup.
    + intros m Hm. apply Hkey in Hm. simpl. lia.
Qed.

(** ** dashboard.py: the period filters *)

Lemma filter_map_comm {A B} (f : A -> B) (p : B -> bool) (l : list A) :
  filter p (map f l) = map f (filter (fun x => p (f x)) l).
Proof.
  induction l as [|a l IH]; [reflexivity|]. cbn [map filter].
  destruct (p (f a)); cbn [map]; now rewrite IH.
Qed.

Lemma load_data_sales (orders : list Order) (order_items : list OrderItem) :
  map (fun t => sale (speed t)) (load_data orders order_items)
  = filter_delivered_orders (build_sales_data orders order_items).
Proof.
  unfold load_data, add_delivery_time, add_delivery_speed.
  rewrite !map_map. cbn [speed sale]. apply map_id.
Qed.

(** X15.  The table that [load_data] prepares holds the delivered sales
    rows, and the page's two period selections, made on the purchase
    timestamp, are [filter_by_period] on those rows: for the selected
    year, and for the year before it, with the same month. *)
Theorem dashboard_periods_are_filter_by_period :
  forall (orders : list Order) (order_items : list OrderItem)
         (sel_year : Z) (sel_month : option Z),
    map (fun t => sale (speed t))
        (sales_curr (load_data orders order_items) sel_year sel_month)
    = filter_by_period
        (filter_delivered_orders (build_sales_data orders order_items))
        sel_year sel_month /\
    map (fun t => sale (speed t))
        (sales_comp (load_data orders order_items) sel_year sel_month)
    = filter_by_period
        (filter_delivered_orders (build_sales_data orders order_items))
        (sel_year - 1) sel_month.
Proof.
  intros orders order_items sel_year sel_month.
  assert (Hgen : forall y,
             map (fun t => sale (speed t))
                 (filter (period_mask y sel_month)
                         (load_data orders order_items))
             = filter_by_period
                 (filter_delivered_orders
                    (build_sales_data orders order_items)) y sel_month).
  { intros y. rewrite <- load_data_sales.
    unfold filter_by_period. rewrite filter_map_comm. f_equal.
    apply filter_ext_in. intros t Ht.
    assert (Hs : In (sale (speed t))
                    (build_sales_data orders order_items)).
    { apply (in_map (fun t => sale (speed t))) in Ht.
      rewrite load_data_sales in Ht.
      unfold filter_delivered_orders in Ht. now apply filter_In in Ht. }
    destruct (build_sales_data_calendar orders order_items _ Hs) as [Hm Hy].
    unfold period_mask. destruct sel_month; cbv beta zeta;
      now rewrite ?Hm, Hy. }
  split; apply Hgen.
Qed.

(** ** dashboard.py: the chart of review score by delivery time *)

Lemma unique_NoDup_id {A} `{EqB A} (l : list A) : NoDup l -> unique l = l.
Proof.
  induction 1 as [|a l Hnotin _ IH]; [reflexivity|]. cbn [unique].
  rewrite IH. f_equal. apply filter_all. intros x Hx.
  apply negb_true_iff, eqb_neq. intros ->. contradiction.
Qed.

Lemma find_unique_key {V} (s : list (string * V)) (c : string) (v : V) :
  NoDup (map fst s) -> In (c, v) s ->
  find (fun e => eqb (fst e) c) s = Some (c, v).
Proof.
  induction s as [|e s IH]; cbn [map find]; [intros _ []|].
  intros Hnd Hin. inversion Hnd as [|? ? Hnotin Hnd']; subst.
  destruct Hin as [->|Hin].
  - cbn [fst]. now rewrite eqb_refl.
  - destruct (eqb_spec (fst e) c) as [E|_]; [|now apply IH].
    exfalso. apply Hnotin. rewrite E.
    change c with (fst (c, v)). now apply in_map.
Qed.

Lemma find_absent_key {V} (s : list (string * V)) (c : string) :
  ~ In c (map fst s) -> find (fun e => eqb (fst e) c) s = None.
Proof.
  induction s as [|e s IH]; cbn [map find]; [reflexivity|].
  intros Hnotin. destruct (eqb_spec (fst e) c) as [E|_].
  - exfalso. apply Hnotin. now left.
  - apply IH. intros Hin. apply Hnotin. now right.
Qed.

Lemma delivery_review_correlation_keys (sales : list SaleTimed)
  (reviews : list Review) :
  NoDup (map fst (calculate_delivery_review_correlation sales reviews)) /\
  (forall c, In c (map fst (calculate_delivery_review_correlation
                              sales reviews)) ->
             exists s r, In s sales /\ In r reviews /\
                         timed_order_id s = r_order_id r /\
                         delivery_time s = c).
Proof.
  unfold calculate_delivery_review_correlation.
  rewrite groupby_mean_unfold, map_map. cbn [fst]. rewrite map_id.
  split; [apply group_keys_NoDup|].
  intros c Hc. apply group_keys_In, in_map_iff in Hc.
  destruct Hc as [row [<- Hrow]]. apply per_order_rows_In in Hrow.
  destruct Hrow as [s [r [Hs [Hr [Hk ->]]]]]. exists s, r.
  repeat split; assumption.
Qed.

(** X16.  The chart rows are always made, never refused for a repeated
    label, and they are the three delivery categories in their fixed
    order.  A category that has an average is shown with it, a category
    without one is shown as missing; and when the delivery categories
    come from [categorize_delivery_speed], as in the table that the page
    prepares, no average is left out. *)
Theorem delivery_chart_rows_complete :
  forall (sales : list SaleTimed) (reviews : list Review),
  exists rows,
    delivery_chart_rows sales reviews = inl rows /\
    map fst rows = DELIVERY_ORDER /\
    (forall c avg,
        In c DELIVERY_ORDER ->
        In (c, avg) (calculate_delivery_review_correlation sales reviews) ->
        In (c, avg) rows) /\
    (forall c,
        In c DELIVERY_ORDER ->
        ~ In c (map fst (calculate_delivery_review_correlation
                           sales reviews)) ->
        In (c, NaN) rows) /\
    (forall speeds : list SaleSpeed,
        sales = add_delivery_time speeds ->
        forall c avg,
          In (c, avg) (calculate_delivery_review_correlation sales reviews) ->
          In (c, avg) rows).
Proof.
  intros sales reviews.
  destruct (delivery_review_correlation_keys sales reviews) as [Hnd Hkeys].
  unfold delivery_chart_rows, reindex.
  set (corr := calculate_delivery_review_correlation sales reviews) in *.
  assert (Hdup : has_duplicates (map fst corr) = false).
  { unfold has_duplicates. rewrite unique_NoDup_id by exact Hnd.
    now rewrite Nat.eqb_refl. }
  rewrite Hdup. eexists. split; [reflexivity|].
  assert (Hshown : forall c avg,
             In c DELIVERY_ORDER -> In (c, avg) corr ->
             In (c, avg)
                (map (fun l =>
                        (l, match find (fun e => eqb (fst e) l) corr with
                            | Some e => snd e
                            | None => NaN
                            end)) DELIVERY_ORDER)).
  { intros c avg Hc Hin. apply in_map_iff. exists c. split; [|exact Hc].
    now rewrite (find_unique_key corr c avg Hnd Hin). }
  split; [|split; [|split]].
  - rewrite map_map. cbn [fst]. apply map_id.
  - exact Hshown.
  - intros c Hc Hnotin. apply in_map_iff. exists c. split; [|exact Hc].
    now rewrite (find_absent_key corr c Hnotin).
  - intros speeds -> c avg Hin. apply Hshown; [|exact Hin].
    destruct (Hkeys c) as [s [_ [Hs [_ [_ <-]]]]].
    + change c with (fst (c, avg)). now apply in_map.
    + unfold add_delivery_time in Hs. apply in_map_iff in Hs.
      destruct Hs as [sp [<- _]]. cbn [delivery_time].
      apply categorize_delivery_speed_label.
Qed.

Lemma delivery_chart_rows_complete_witness :
  exists rows,
    delivery_chart_rows timed_sales timed_reviews = inl rows /\
    In ("8+ days", Fin (Qc_of_Z 2)) rows.
Proof.
  destruct (delivery_chart_rows_complete timed_sales timed_reviews)
    as [rows [Hrows [_ [_ [_ Hall]]]]].
  exists rows. split; [exact Hrows|].
  apply (Hall (add_delivery_speed
                 (filter_delivered_orders
                    (map (fun t => sale (speed t)) timed_sales)))).
  - vm_compute. reflexivity.
  - vm_compute. right. left. repeat f_equal.
Defined.

(** ** dashboard.py: star_str *)

Lemma round_half_even_near (q : Qc) :
  (q - (1 # 2) <= inject_Z (round_half_even q)
   /\ inject_Z (round_half_even q) <= q + (1 # 2))%Q.
Proof.
  unfold round_half_even.
  pose proof (Qfloor_le q) as Hlo. pose proof (Qlt_floor q) as Hhi.
  rewrite inject_Z_plus in Hhi. change (inject_Z 1) with 1%Q in Hhi.
  set (f := Qfloor q) in *.
  destruct (Qcompare (q - inject_Z f) (1 # 2)) eqn:E.
  - apply Qeq_alt in E.
    destruct (Z.even f); rewrite ?inject_Z_plus;
      change (inject_Z 1) with 1%Q; lra.
  - apply Qlt_alt in E. lra.
  - apply Qgt_alt in E. rewrite inject_Z_plus.
    change (inject_Z 1) with 1%Q. lra.
Qed.

Lemma round_half_even_monotone (q1 q2 : Qc) :
  (q1 <= q2)%Qc -> round_half_even q1 <= round_half_even q2.
Proof.
  intros Hle. destruct (Qc_eq_dec q1 q2) as [->|Hne]; [lia|].
  assert (Hlt : (q1 < q2)%Q).
  { destruct (Qcle_lt_or_eq _ _ Hle) as [H|H]; [exact H|contradiction]. }
  destruct (round_half_even_near q1) as [_ H1].
  destruct (round_half_even_near q2) as [H2 _].
  assert (H : (inject_Z (round_half_even q1)
               < inject_Z (round_half_even q2 + 1))%Q).
  { rewrite inject_Z_plus. change (inject_Z 1) with 1%Q. lra. }
  rewrite <- Zlt_Qlt in H. lia.
Qed.

(** Halfway between two integers, the even one is taken. *)
Lemma round_half_even_tie (q : Qc) :
  (inject_Z (round_half_even q) - q == 1 # 2
   \/ q - inject_Z (round_half_even q) == 1 # 2)%Q ->
  Z.even (round_half_even q) = true.
Proof.
  unfold round_half_even.
  pose proof (Qfloor_le q) as Hlo. pose proof (Qlt_floor q) as Hhi.
  rewrite inject_Z_plus in Hhi. change (inject_Z 1) with 1%Q in Hhi.
  set (f := Qfloor q) in *.
  destruct (Qcompare (q - inject_Z f) (1 # 2)) eqn:E.
  - intros _. destruct (Z.even f) eqn:Ef; [exact Ef|].
    rewrite Z.add_1_r, Z.even_succ, <- Z.negb_even, Ef. reflexivity.
  - apply Qlt_alt in E. intros [H|H]; exfalso; lra.
  - apply Qgt_alt in E. rewrite inject_Z_plus.
    change (inject_Z 1) with 1%Q. intros [H|H]; exfalso; lra.
Qed.

Lemma stars_injective (n1 n2 : Z) :
  0 <= n1 <= 5 -> 0 <= n2 <= 5 -> stars n1 = stars n2 -> n1 = n2.
Proof.
  intros H1 H2 E.
  assert (C1 : n1 = 0 \/ n1 = 1 \/ n1 = 2 \/ n1 = 3 \/ n1 = 4 \/ n1 = 5)
    by lia.
  assert (C2 : n2 = 0 \/ n2 = 1 \/ n2 = 2 \/ n2 = 3 \/ n2 = 4 \/ n2 = 5)
    by lia.
  destruct C1 as [->|[->|[->|[->|[->| ->]]]]];
    destruct C2 as [->|[->|[->|[->|[->| ->]]]]];
    first [reflexivity | vm_compute in E; discriminate E].
Qed.

(** X17.  [star_str] returns a rating for every score but the two
    infinities, on which it raises OverflowError.  A missing score, given
    as [None] or as NaN, is rated with no filled star.  A number is rated
    with [n] filled stars followed by [5 - n] empty ones.  For a score
    from 0 to 5, [n] is an integer at most 1/2 away from the score, and
    an even one when it is exactly 1/2 away: the score rounded to the
    nearest integer, halves to even.  A score of 0 or less has no filled
    star and a score of 5 or more has five.  Ratings with different [n]
    differ, and a higher score never has fewer filled stars.  A score of
    5/2 has two filled stars and a score of 7/2 has four. *)
Theorem star_str_rating :
  (forall score : option xnum,
      (exists s, star_str score = inl s)
      <-> score <> Some PInf /\ score <> Some NInf) /\
  star_str (Some PInf) = inr OverflowError /\
  star_str (Some NInf) = inr OverflowError /\
  star_str None = inl (stars 0) /\
  star_str (Some NaN) = inl (stars 0) /\
  (forall q : Qc,
      exists n,
        star_str (Some (Fin q)) = inl (stars n) /\
        0 <= n <= 5 /\
        ((0 <= q)%Qc -> (q <= Qc_of_Z 5)%Qc ->
         (q - (1 # 2) <= inject_Z n /\ inject_Z n <= q + (1 # 2))%Q /\
         ((inject_Z n - q == 1 # 2 \/ q - inject_Z n == 1 # 2)%Q ->
          Z.even n = true)) /\
        ((q <= 0)%Qc -> n = 0) /\
        ((Qc_of_Z 5 <= q)%Qc -> n = 5)) /\
  (forall q1 q2 n1 n2,
      (q1 <= q2)%Qc ->
      0 <= n1 <= 5 -> 0 <= n2 <= 5 ->
      star_str (Some (Fin q1)) = inl (stars n1) ->
      star_str (Some (Fin q2)) = inl (stars n2) ->
      n1 <= n2) /\
  (forall n1 n2, 0 <= n1 <= 5 -> 0 <= n2 <= 5 ->
                 stars n1 = stars n2 -> n1 = n2) /\
  star_str (Some (Fin (Q2Qc (5 # 2)))) = inl "★★☆☆☆" /\
  star_str (Some (Fin (Q2Qc (7 # 2)))) = inl "★★★★☆".
Proof.
  split; [|split; [reflexivity|split; [reflexivity|split; [reflexivity|
    split; [reflexivity|split; [|split; [|split;
      [exact stars_injective|split; reflexivity]]]]]]]].
  - intros [[q| | |]|]; cbn [star_str]; split.
    + intros _. split; discriminate.
    + intros _. eexists. reflexivity.
    + intros [s Hs]. discriminate.
    + intros [H _]. congruence.
    + intros [s Hs]. discriminate.
    + intros [_ H]. congruence.
    + intros _. split; discriminate.
    + intros _. eexists. reflexivity.
    + intros _. split; discriminate.
    + intros _. eexists. reflexivity.
  - intros q. cbn [star_str]. cbv zeta.
    exists (Z.max 0 (Z.min 5 (round_half_even q))).
    split; [reflexivity|]. split; [lia|].
    destruct (round_half_even_near q) as [Hlo Hhi].
    split; [|split].
    + intros H0 H5.
      assert (H0' : (0 <= q)%Q) by exact H0.
      assert (H5' : (q <= 5)%Q) by exact H5.
      assert (0 <= round_half_even q <= 5).
      { assert (Ha : (inject_Z (-1) < inject_Z (round_half_even q))%Q).
        { change (inject_Z (-1)) with (-1)%Q. lra. }
        assert (Hb : (inject_Z (round_half_even q) < inject_Z 6)%Q).
        { change (inject_Z 6) with 6%Q. lra. }
        rewrite <- Zlt_Qlt in Ha, Hb. lia. }
      rewrite Z.min_r, Z.max_r by lia.
      split; [split; assumption|apply round_half_even_tie].
    + intros H0.
      assert (H0' : (q <= 0)%Q) by exact H0.
      assert (Ha : (inject_Z (round_half_even q) < inject_Z 1)%Q).
      { change (inject_Z 1) with 1%Q. lra. }
      rewrite <- Zlt_Qlt in Ha. lia.
    + intros H5.
      assert (H5' : (5 <= q)%Q) by exact H5.
      assert (Ha : (inject_Z 4 < inject_Z (round_half_even q))%Q).
      { change (inject_Z 4) with 4%Q. lra. }
      rewrite <- Zlt_Qlt in Ha. lia.
  - intros q1 q2 n1 n2 Hle Hn1 Hn2 E1 E2.
    cbn [star_str] in E1, E2. cbv zeta in E1, E2.
    injection E1 as E1. injection E2 as E2.
    apply stars_injective in E1; [|lia|lia].
    apply stars_injective in E2; [|lia|lia].
    pose proof (round_half_even_monotone q1 q2 Hle). lia.
Qed.

Lemma star_str_rating_witness :
  2 <= 4.
Proof.
  apply (proj1 (proj2 (proj2 (proj2 (proj2 (proj2 (proj2 star_str_rating))))))
           (Q2Qc (5 # 2)) (Q2Qc (7 # 2)) 2 4).
  - unfold Qcle. simpl. unfold Qle. simpl. lia.
  - lia.
  - lia.
  - reflexivity.
  - reflexivity.
Defined.

(** ** calculate_revenue_growth: sign and missing values *)

Lemma growth_times_previous (c p : Qc) :
  p <> 0%Qc -> ((c - p) / p * p = c - p)%Qc.
Proof. intros Hp. now field. Qed.

Lemma Qcle_0_minus (a b : Qc) : (0 <= b - a)%Qc <-> (a <= b)%Qc.
Proof. unfold Qcminus. symmetry. apply Qcle_minus_iff. Qed.

(** X18.  [calculate_revenue_growth] returns for every pair of floats,
    the infinities and NaN included; with NaN as the current or as the
    previous value it returns NaN.  On finite numbers with a positive
    previous value the growth is non-negative exactly when the current
    value is at least the previous one; with a negative previous value it
    is the other way round; and the growth is zero exactly when the two
    values are equal. *)
Theorem calculate_revenue_growth_sign :
  (forall current previous : xnum,
      exists g, calculate_revenue_growth current previous = Returns g) /\
  (forall current, calculate_revenue_growth current NaN = Returns NaN) /\
  (forall previous, calculate_revenue_growth NaN previous = Returns NaN) /\
  (forall c p : Qc,
      p <> 0%Qc ->
      exists g,
        calculate_revenue_growth (Fin c) (Fin p) = Returns (Fin g) /\
        ((0 < p)%Qc -> ((0 <= g)%Qc <-> (p <= c)%Qc)) /\
        ((p < 0)%Qc -> ((0 <= g)%Qc <-> (c <= p)%Qc)) /\
        (g = 0%Qc <-> c = p)).
Proof.
  split; [|split; [|split]].
  - intros current previous. unfold calculate_revenue_growth, py_truediv.
    destruct (xeqb previous (xint 0)); eexists; reflexivity.
  - intros current. unfold calculate_revenue_growth, py_truediv. cbn [xeqb].
    now destruct current.
  - intros previous. unfold calculate_revenue_growth, py_truediv.
    destruct (xeqb previous (xint 0)); [reflexivity|].
    now destruct previous.
  - intros c p Hp. exists ((c - p) / p)%Qc.
    pose proof (growth_times_previous c p Hp) as Hg.
    split; [|split; [|split]].
    + unfold calculate_revenue_growth, py_truediv. rewrite xeqb_zero_Fin.
      apply Qc_eqb_neq in Hp. rewrite Hp. cbn. now rewrite Hp.
    + intros Hpos. split; intros H.
      * apply Qcle_0_minus. rewrite <- Hg, <- (Qcmult_0_l p).
        apply Qcmult_le_compat_r; [exact H|]. now apply Qclt_le_weak.
      * apply (Qcmult_lt_0_le_reg_r _ _ p Hpos).
        rewrite Qcmult_0_l, Hg. now apply Qcle_0_minus.
    + intros Hneg.
      assert (Hpos : (0 < - p)%Qc).
      { apply Qclt_minus_iff in Hneg. now rewrite Qcplus_0_l in Hneg. }
      assert (Hg' : ((c - p) / p * - p = p - c)%Qc) by now field.
      split; intros H.
      * apply Qcle_0_minus. rewrite <- Hg', <- (Qcmult_0_l (- p)).
        apply Qcmult_le_compat_r; [exact H|]. now apply Qclt_le_weak.
      * apply (Qcmult_lt_0_le_reg_r _ _ (- p) Hpos).
        rewrite Qcmult_0_l, Hg'. now apply Qcle_0_minus.
    + split.
      * intros E. rewrite E, Qcmult_0_l in Hg.
        symmetry in Hg. assert (c = c - p + p)%Qc by ring.
        rewrite Hg in H. rewrite H. ring.
      * intros ->. unfold Qcdiv. ring.
Qed.

Lemma calculate_revenue_growth_sign_witness :
  exists g,
    calculate_revenue_growth (Fin (Qc_of_Z 90)) (Fin (Qc_of_Z (-150)))
    = Returns (Fin g) /\
    ((0 < Qc_of_Z (-150))%Qc
     -> ((0 <= g)%Qc <-> (Qc_of_Z (-150) <= Qc_of_Z 90)%Qc)) /\
    ((Qc_of_Z (-150) < 0)%Qc
     -> ((0 <= g)%Qc <-> (Qc_of_Z 90 <= Qc_of_Z (-150))%Qc)) /\
    (g = 0%Qc <-> Qc_of_Z 90 = Qc_of_Z (-150)).
Proof.
  apply (proj2 (proj2 (proj2 calculate_revenue_growth_sign))).
  intros E. discriminate (f_equal (fun q : Qc => Qnum (this q)) E).
Defined.

(** ** calculate_average_delivery_time: bounds *)

Lemma mean_nan (l : list Qc) : mean l = NaN <-> l = [].
Proof. destruct l; simpl; split; congruence. Qed.

Lemma dropna_nil (col : list (option Z)) :
  dropna col = [] <-> forall v, In v col -> v = None.
Proof.
  unfold dropna. induction col as [|v col IH]; cbn [flat_map].
  - split; [intros _ v []|reflexivity].
  - destruct v as [n|]; cbn [app].
    + split; [discriminate|]. intros Hall.
      discriminate (Hall (Some n) (or_introl eq_refl)).
    + rewrite IH. split.
      * intros Hall v [<-|Hv]; [reflexivity|now apply Hall].
      * intros Hall v Hv. apply Hall. now right.
Qed.

Lemma dropna_In (col : list (option Z)) (x : Qc) :
  In x (dropna col) <-> exists n, In (Some n) col /\ x = Qc_of_Z n.
Proof.
  unfold dropna. rewrite in_flat_map. split.
  - intros [[n|] [Hv Hx]]; simpl in Hx; [|contradiction].
    destruct Hx as [<-|[]]. now exists n.
  - intros [n [Hn ->]]. exists (Some n). split; [exact Hn|now left].
Qed.

(** X19.  The average delivery time is NaN exactly when no row has a
    delivery speed, the empty table included; otherwise it is a number,
    and when every delivery speed lies between two bounds, so does the
    average. *)
Theorem calculate_average_delivery_time_bounds :
  forall rows : list SaleSpeed,
    (calculate_average_delivery_time rows = NaN
     <-> forall r, In r rows -> delivery_speed_days r = None) /\
    (forall lo hi : Z,
        (exists r, In r rows /\ delivery_speed_days r <> None) ->
        (forall r d, In r rows -> delivery_speed_days r = Some d ->
                     lo <= d <= hi) ->
        exists q, calculate_average_delivery_time rows = Fin q /\
                  (Qc_of_Z lo <= q /\ q <= Qc_of_Z hi)%Qc).
Proof.
  intros rows. unfold calculate_average_delivery_time. split.
  - rewrite mean_nan, dropna_nil. split.
    + intros Hall r Hr. apply Hall. now apply in_map.
    + intros Hall v Hv. apply in_map_iff in Hv.
      destruct Hv as [r [<- Hr]]. now apply Hall.
  - intros lo hi [r [Hr Hsome]] Hrange. apply mean_bounds.
    + intros Hnil. apply Hsome.
      apply (proj1 (dropna_nil _) Hnil). now apply in_map.
    + intros x Hx. apply dropna_In in Hx. destruct Hx as [n [Hn ->]].
      apply in_map_iff in Hn. destruct Hn as [r' [E Hr']].
      destruct (Hrange r' n Hr' E).
      split; apply Qc_of_Z_le; assumption.
Qed.

Lemma calculate_average_delivery_time_bounds_witness :
  exists q, calculate_average_delivery_time [delivered_speed; undelivered]
            = Fin q /\ (Qc_of_Z 0 <= q /\ q <= Qc_of_Z 9)%Qc.
Proof.
  apply (proj2 (calculate_average_delivery_time_bounds
                  [delivered_speed; undelivered])).
  - exists delivered_speed. split; [now left|discriminate].
  - intros r d [<-|[<-|[]]] E; simpl in E; [|discriminate].
    injection E as <-. lia.
Defined.

(** ** calculate_delivery_review_correlation on any tables *)

(** X20.  Whatever the tables, the result lists each delivery category at
    most once, and only categories of sales rows whose order has a
    review; the average of a listed category is a number, never NaN, and
    lies between 1 and 5 when every review score does; and a sales row
    whose order has no review can be left out without changing the
    result. *)
Theorem delivery_review_correlation_entries :
  forall (sales : list SaleTimed) (reviews : list Review),
    NoDup (map fst (calculate_delivery_review_correlation sales reviews)) /\
    (forall c avg,
        In (c, avg) (calculate_delivery_review_correlation sales reviews) ->
        (exists s r, In s sales /\ In r reviews /\
                     timed_order_id s = r_order_id r /\ delivery_time s = c)
        /\ (exists q, avg = Fin q)) /\
    (forall c avg,
        (forall r, In r reviews -> 1 <= r_review_score r <= 5) ->
        In (c, avg) (calculate_delivery_review_correlation sales reviews) ->
        exists q, avg = Fin q /\ (Qc_of_Z 1 <= q /\ q <= Qc_of_Z 5)%Qc) /\
    (forall before after s,
        sales = before ++ s :: after ->
        ~ In (timed_order_id s) (map r_order_id reviews) ->
        calculate_delivery_review_correlation sales reviews
        = calculate_delivery_review_correlation (before ++ after) reviews).
Proof.
  intros sales reviews.
  destruct (delivery_review_correlation_keys sales reviews) as [Hnd Hkeys].
  split; [exact Hnd|split; [|split]].
  - intros c avg Hin. split.
    + apply Hkeys. change c with (fst (c, avg)). now apply in_map.
    + apply delivery_review_correlation_groups in Hin.
      destruct Hin as [Hne ->].
      rewrite (mean_map_nonempty _ _ Hne). eexists. reflexivity.
  - intros c avg Hrange Hin.
    apply delivery_review_correlation_groups in Hin.
    destruct Hin as [Hne ->]. apply mean_bounds.
    + destruct (category_observations _ c); [congruence|discriminate].
    + intros x Hx. apply in_map_iff in Hx. destruct Hx as [row [<- Hrow]].
      unfold category_observations in Hrow. apply filter_In in Hrow.
      destruct Hrow as [Hrow _]. apply per_order_rows_In in Hrow.
      destruct Hrow as [s [r [_ [Hr [_ ->]]]]].
      unfold per_order_columns, row_review_score. cbn [snd].
      destruct (Hrange r Hr). split; apply Qc_of_Z_le; assumption.
  - intros before after s -> Hs.
    unfold calculate_delivery_review_correlation, per_order_rows.
    now rewrite (merge_left_absent timed_order_id r_order_id
                   before after s reviews Hs).
Qed.

Lemma delivery_review_correlation_entries_witness :
  calculate_delivery_review_correlation
    ([] ++ delivered_timed :: timed_sales) [review_of "r2" "B" 5]
  = calculate_delivery_review_correlation
      ([] ++ timed_sales) [review_of "r2" "B" 5].
Proof.
  apply (proj2 (proj2 (proj2
           (delivery_review_correlation_entries
              _ [review_of "r2" "B" 5])))
           [] timed_sales delivered_timed eq_refl).
  simpl. intuition discriminate.
Defined.

(** ** calculate_category_revenue: nothing counted twice *)

Lemma filter_disjoint_Permutation {A} (a b : A -> bool) (l : list A) :
  (forall x, In x l -> a x = true -> b x = false) ->
  Permutation (filter a l ++ filter b l) (filter (fun x => a x || b x) l).
Proof.
  induction l as [|x l IH]; intros Hdis; [constructor|].
  assert (IH' := IH (fun y Hy => Hdis y (or_intror Hy))).
  cbn [filter]. destruct (a x) eqn:Ea.
  - rewrite (Hdis x (or_introl eq_refl) Ea). cbn [orb app]. now constructor.
  - destruct (b x); cbn [orb].
    + apply Permutation_sym, Permutation_cons_app, Permutation_sym, IH'.
    + exact IH'.
Qed.

Section MergeOnce.
Context {L R K : Type} `{EqB K} (keyl : L -> K) (keyr : R -> K).

(** When the left keys are unique, the join holds a right row at most
    once: the right rows of the joined rows whose left row passes a test
    are, up to their order, the right rows that have such a left row. *)
Lemma merge_snd_Permutation (f : L -> bool) (left : list L)
  (right : list R) :
  NoDup (map keyl left) ->
  Permutation
    (map snd (filter (fun m => f (fst m)) (merge keyl keyr left right)))
    (filter (fun r => existsb (fun l => eqb (keyl l) (keyr r) && f l) left)
            right).
Proof.
  induction left as [|l left IH]; intros Hnd.
  - cbn [merge flat_map filter map existsb].
    induction right as [|r right IHr]; [constructor|exact IHr].
  - inversion Hnd as [|? ? Hnotin Hnd']; subst.
    assert (Hcons : merge keyl keyr (l :: left) right
                    = map (pair l)
                          (filter (fun r => eqb (keyl l) (keyr r)) right)
                      ++ merge keyl keyr left right) by reflexivity.
    assert (Hhead :
              map snd (filter (fun m => f (fst m))
                         (map (pair l)
                              (filter (fun r => eqb (keyl l) (keyr r))
                                      right)))
              = filter (fun r => eqb (keyl l) (keyr r) && f l) right).
    { rewrite filter_map_comm, map_map.
      rewrite (map_ext (fun r : R => snd (l, r)) (fun r => r))
        by reflexivity.
      rewrite map_id.
      apply (filter_filter_and (fun _ : R => f l)
               (fun r => eqb (keyl l) (keyr r))). }
    rewrite Hcons, filter_app, map_app, Hhead.
    eapply Permutation_trans;
      [apply Permutation_app_head, IH, Hnd'
      |apply (filter_disjoint_Permutation
                (fun r => eqb (keyl l) (keyr r) && f l)
                (fun r => existsb (fun l' => eqb (keyl l') (keyr r) && f l')
                                  left))].
    intros r _ Hr. apply andb_true_iff in Hr. destruct Hr as [Hr _].
    apply eqb_eq in Hr.
    destruct (existsb _ left) eqn:E; [|reflexivity].
    apply existsb_exists in E. destruct E as [l' [Hl' Hm]].
    apply andb_true_iff in Hm. destruct Hm as [Hm _]. apply eqb_eq in Hm.
    exfalso. apply Hnotin. rewrite Hr, <- Hm. now apply in_map.
Qed.

End MergeOnce.

(** X21.  When product identifiers are unique in the catalog, no sales
    row is counted twice: the revenue of a category is the sum of price
    over the sales rows whose product the catalog lists under the
    category, each row taken once, in the order of the join. *)
Theorem calculate_category_revenue_rows_once :
  forall (sales_data : list Sale) (products : list Product),
    NoDup (map p_product_id products) ->
    forall c v,
      In (c, v) (calculate_category_revenue sales_data products) ->
      exists rows : list Sale,
        v = sum (map price rows) /\
        Permutation rows
          (filter (fun s =>
                     existsb (fun p =>
                                eqb (p_product_id p) (product_id s)
                                && eqb (p_product_category_name p) (Some c))
                             products)
                  sales_data).
Proof.
  intros sales_data products Hnd c v Hin.
  unfold calculate_category_revenue, sort_values_desc in Hin.
  apply sort_In in Hin. rewrite groupby_sum_unfold in Hin.
  apply in_map_iff in Hin. destruct Hin as [k [E _]].
  inversion E; subst k v.
  set (merged := merge p_product_id product_id products sales_data).
  exists (map snd (filter (fun m => eqb (p_product_category_name (fst m))
                                        (Some c)) merged)).
  split.
  - rewrite map_map. f_equal.
    exact (dropna_key_group (fun m => p_product_category_name (fst m))
                            (fun m => price (snd m)) merged c).
  - apply (merge_snd_Permutation p_product_id product_id
             (fun p => eqb (p_product_category_name p) (Some c))).
    exact Hnd.
Qed.

Lemma calculate_category_revenue_rows_once_witness :
  exists rows : list Sale,
    Qc_of_Z 30 = sum (map price rows) /\
    Permutation rows
      (filter (fun s =>
                 existsb (fun p =>
                            eqb (p_product_id p) (product_id s)
                            && eqb (p_product_category_name p) (Some "books"))
                         catalog)
              catalog_sales).
Proof.
  apply (calculate_category_revenue_rows_once catalog_sales catalog).
  - repeat constructor; simpl; intuition discriminate.
  - vm_compute. left. repeat f_equal.
Defined.

(** ** summarize_period_metrics: the period label *)

Lemma digits_no_dash (d1 d2 : Decimal.uint) (t : string) :
  NilEmpty.string_of_uint d1
  <> (NilEmpty.string_of_uint d2 ++ String "-" t)%string.
Proof.
  revert d1. induction d2 as [|d2 IH|d2 IH|d2 IH|d2 IH|d2 IH|d2 IH|d2 IH|d2 IH
                              |d2 IH|d2 IH];
    intros d1 E; destruct d1; cbn in E; try discriminate E;
    injection E as E; exact (IH _ E).
Qed.

Lemma digits_split (d1 d2 : Decimal.uint) (t1 t2 : string) :
  (NilEmpty.string_of_uint d1 ++ String "-" t1)%string
  = (NilEmpty.string_of_uint d2 ++ String "-" t2)%string ->
  NilEmpty.string_of_uint d1 = NilEmpty.string_of_uint d2 /\ t1 = t2.
Proof.
  revert d2. induction d1 as [|d1 IH|d1 IH|d1 IH|d1 IH|d1 IH|d1 IH|d1 IH|d1 IH
                              |d1 IH|d1 IH];
    intros d2 E; destruct d2; cbn in E; try discriminate E;
    try (injection E as E; destruct (IH _ E) as [E1 E2];
         split; [cbn; now rewrite E1|exact E2]).
  injection E as E. now split.
Qed.

Lemma str_int_digits (y : Z) :
  0 <= y -> exists d, str_int y = NilEmpty.string_of_uint d.
Proof.
  intros Hy. unfold str_int. destruct y as [|p|p]; [| |lia].
  - exists (Decimal.D0 Decimal.Nil). reflexivity.
  - exists (Pos.to_uint p). cbn.
    pose proof (DecimalPos.Unsigned.to_uint_nonnil p) as Hnil.
    now destruct (Pos.to_uint p).
Qed.

Lemma str_int_inj (y1 y2 : Z) : str_int y1 = str_int y2 -> y1 = y2.
Proof.
  unfold str_int. intros E.
  assert (Hnn : forall y, Z.to_int y <> Decimal.Pos Decimal.Nil
                        /\ Z.to_int y <> Decimal.Neg Decimal.Nil).
  { intros [|p|p]; cbn; split; try discriminate;
      intros [= H]; exact (DecimalPos.Unsigned.to_uint_nonnil p H). }
  apply (f_equal NilZero.int_of_string) in E.
  rewrite !NilZero.isi in E by apply Hnn.
  injection E as E. now apply DecimalZ.to_int_inj.
Qed.

Lemma format_02d_month_inj (m1 m2 : Z) :
  1 <= m1 <= 12 -> 1 <= m2 <= 12 -> format_02d m1 = format_02d m2 -> m1 = m2.
Proof.
  intros H1 H2 E.
  assert (C1 : m1 = 1 \/ m1 = 2 \/ m1 = 3 \/ m1 = 4 \/ m1 = 5 \/ m1 = 6 \/
               m1 = 7 \/ m1 = 8 \/ m1 = 9 \/ m1 = 10 \/ m1 = 11 \/ m1 = 12)
    by lia.
  assert (C2 : m2 = 1 \/ m2 = 2 \/ m2 = 3 \/ m2 = 4 \/ m2 = 5 \/ m2 = 6 \/
               m2 = 7 \/ m2 = 8 \/ m2 = 9 \/ m2 = 10 \/ m2 = 11 \/ m2 = 12)
    by lia.
  destruct C1 as [->|[->|[->|[->|[->|[->|[->|[->|[->|[->|[->| ->]]]]]]]]]]];
    destruct C2 as [->|[->|[->|[->|[->|[->|[->|[->|[->|[->|[->| ->]]]]]]]]]]];
    first [reflexivity | vm_compute in E; discriminate E].
Qed.

(** X22.  Period labels tell the periods apart: for years from 0 on and
    months from 1 to 12, two summaries carry the same label only when
    they are for the same year and both for the whole year or both for
    the same month.  The label of July 2023 is "2023-07", that of the
    year "2023". *)
Theorem period_label_injective :
  (forall (sales1 sales2 : list Sale) (y1 y2 : Z) (m1 m2 : option Z),
      0 <= y1 -> 0 <= y2 ->
      match m1 with Some m => 1 <= m <= 12 | None => True end ->
      match m2 with Some m => 1 <= m <= 12 | None => True end ->
      period (summarize_period_metrics sales1 y1 m1)
      = period (summarize_period_metrics sales2 y2 m2) ->
      y1 = y2 /\ m1 = m2) /\
  period (summarize_period_metrics [] 2023 (Some 7)) = "2023-07" /\
  period (summarize_period_metrics [] 2023 None) = "2023".
Proof.
  split; [|split; reflexivity].
  intros sales1 sales2 y1 y2 m1 m2 Hy1 Hy2 Hm1 Hm2.
  cbn [summarize_period_metrics period].
  destruct (str_int_digits y1 Hy1) as [d1 Hd1].
  destruct (str_int_digits y2 Hy2) as [d2 Hd2].
  destruct m1 as [m1|], m2 as [m2|]; intros E.
  - rewrite Hd1, Hd2 in E. cbn [String.append] in E.
    apply digits_split in E. destruct E as [Ed Em].
    rewrite <- Hd1, <- Hd2 in Ed. apply str_int_inj in Ed.
    apply format_02d_month_inj in Em; try assumption. now subst.
  - rewrite Hd1, Hd2 in E. cbn [String.append] in E. symmetry in E.
    now apply digits_no_dash in E.
  - rewrite Hd1, Hd2 in E. cbn [String.append] in E.
    now apply digits_no_dash in E.
  - apply str_int_inj in E. now subst.
Qed.

Lemma period_label_injective_witness :
  2023 = 2023 /\ Some 7 = Some 7.
Proof.
  apply (proj1 period_label_injective [] two_orders 2023 2023
               (Some 7) (Some 7)); try lia.
  reflexivity.
Defined.

Lemma build_sales_data_months_witness :
  1 <= month (sales_row (item_of "A" 1 10) (order_of "A" 0)) <= 12.
Proof.
  apply (proj1 (build_sales_data_months orders_once one_item)).
  left. reflexivity.
Defined.
